(** * alx-backend-storage, 0x02-redis_basic: [exercise.py] and [web.py]

    A shallow embedding of the two Python modules together with the part
    of the Redis server and of the redis-py client they talk to.

    - Python values are a small tagged union ([pyval]).  A [str] is kept
      as its UTF-8 byte string, [bytes] as the byte string itself, so the
      two differ by their tag exactly as [str] and [bytes] differ by
      their type in Python.  A [str] that holds a lone surrogate has no
      UTF-8 form and is a value of its own kind.
    - Python code runs in the monad [M]: a function of the [world] that
      returns a value or a raised exception together with the new world.
      State written before an exception is raised stays written.
    - The Redis server is one database: a finite map from keys to entries
      (a string or a list, with an optional expiry instant), read through
      the server clock [now]. *)

From Stdlib Require Import ZArith String Ascii List DecimalString DecimalZ DecimalPos
  DecimalFacts Lia.
From stdpp Require Import gmap strings list.

Local Open Scope string_scope.
Local Open Scope Z_scope.

(** ** Python values and exceptions *)

Inductive pyval : Type :=
  | PNone
  | PBool (b : bool)
  | PInt (z : Z)
  | PFloat (bits : Z)      (* an IEEE-754 double, as its 64-bit pattern *)
  | PStr (s : string)      (* text, as its UTF-8 encoding *)
  | PStrLone (s : string)  (* text with a lone surrogate somewhere, which
                              UTF-8 cannot encode; [s] spells it with each
                              surrogate as its three-byte form *)
  | PBytes (b : string).

Inductive exn : Type :=
  | DataError                       (* redis.exceptions.DataError *)
  | ResponseError (msg : string)    (* redis.exceptions.ResponseError *)
  | UnicodeDecodeError
  | UnicodeEncodeError
  | AttributeError
  | TypeError
  | ValueError
  | OverflowError
  | RequestException (msg : string) (* whatever [requests.get] raises *).

Inductive outcome (A : Type) : Type :=
  | Ok (a : A)
  | Raise (e : exn).
Arguments Ok {A} a.
Arguments Raise {A} e.

(** The union [Union[str, bytes, int, float]] of [Cache.store]'s
    annotation; [bool] is an [int] to Python's [isinstance] but the
    client refuses it, so it is not listed. *)
Definition supported (v : pyval) : bool :=
  match v with
  | PStr _ | PStrLone _ | PBytes _ | PInt _ | PFloat _ => true
  | PNone | PBool _ => false
  end.

(** [bool(v)], the truth value tested by [if v:]. *)
Definition truthy (v : pyval) : bool :=
  match v with
  | PNone => false
  | PBool b => b
  | PInt z => negb (Z.eqb z 0)
  | PFloat bits => negb (Z.eqb (Z.land bits (2 ^ 63 - 1)) 0)
  | PStr s | PStrLone s | PBytes s => negb (String.eqb s "")
  end.

(** ** Decimal text *)

(** The decimal digits of [z], with a minus sign when it is negative:
    what Redis's [ll2string] writes, and what Python's [repr(z)] gives
    when it gives anything ([repr_int] below). *)
Definition int_repr (z : Z) : string := NilZero.string_of_int (Z.to_int z).

(** CPython refuses to convert between [int] and decimal text beyond
    [sys.int_info.default_max_str_digits] digits. *)
Definition MAX_STR_DIGITS : Z := 4300.

Definition digit_count (z : Z) : Z :=
  Z.of_nat (String.length (int_repr (Z.abs z))).

(** [repr(z)], and [str(z)], for a Python [int]. *)
Definition repr_int (z : Z) : outcome string :=
  if digit_count z <=? MAX_STR_DIGITS then Ok (int_repr z) else Raise ValueError.

(** The values of a supported type that can be written down: text with
    no lone surrogate, binary data, a double, and an integer of no more
    than [MAX_STR_DIGITS] digits. *)
Definition storable (v : pyval) : bool :=
  match v with
  | PStr _ | PBytes _ | PFloat _ => true
  | PInt z => digit_count z <=? MAX_STR_DIGITS
  | PStrLone _ | PNone | PBool _ => false
  end.

Definition LLONG_MAX : Z := 2 ^ 63 - 1.
Definition LLONG_MIN : Z := - 2 ^ 63.

(** Redis's [string2ll]: exactly the canonical decimal spellings of the
    signed 64-bit integers (no sign [+], no leading zero, no ["-0"], no
    blanks). *)
Definition string2ll (s : string) : option Z :=
  match NilZero.int_of_string s with
  | Some d =>
      let z := Z.of_int d in
      if String.eqb (int_repr z) s && (LLONG_MIN <=? z) && (z <=? LLONG_MAX)
      then Some z else None
  | None => None
  end.

(** Python's [int(b)] on text or bytes, base 10: blanks are stripped on
    both sides, one sign is allowed, single underscores may separate
    digits, leading zeros are fine, and no more than [MAX_STR_DIGITS]
    digits are read. *)
Definition is_space (a : ascii) : bool :=
  let n := N_of_ascii a in ((9 <=? n) && (n <=? 13) || (n =? 32))%N.

Fixpoint lstrip (s : string) : string :=
  match s with
  | String a r => if is_space a then lstrip r else s
  | EmptyString => s
  end.

Fixpoint rstrip (s : string) : string :=
  match s with
  | String a r =>
      match rstrip r with
      | EmptyString => if is_space a then EmptyString else String a EmptyString
      | r' => String a r'
      end
  | EmptyString => EmptyString
  end.

Definition is_digit (a : ascii) : bool :=
  let n := N_of_ascii a in ((48 <=? n) && (n <=? 57))%N.

(** Digits with single underscores between them; [prev] tells whether the
    previous character was a digit. *)
Fixpoint drop_underscores (prev : bool) (s : string) : option string :=
  match s with
  | EmptyString => if prev then Some EmptyString else None
  | String a r =>
      if is_digit a then option_map (String a) (drop_underscores true r)
      else if Ascii.eqb a "_" then
        if prev then
          match r with
          | String b _ => if is_digit b then drop_underscores false r else None
          | EmptyString => None
          end
        else None
      else None
  end.

Definition parse_digits (s : string) : option Z :=
  match drop_underscores false s with
  | Some ds =>
      if MAX_STR_DIGITS <? Z.of_nat (String.length ds) then None
      else
        match NilEmpty.uint_of_string ds with
        | Some u => Some (Z.of_uint u)
        | None => None
        end
  | None => None
  end.

Definition int_of_text (s : string) : option Z :=
  match rstrip (lstrip s) with
  | String "-" r => option_map Z.opp (parse_digits r)
  | String "+" r => parse_digits r
  | r => parse_digits r
  end.

(** [int(x)] for a double: the integer part, towards zero; no integer
    for an infinity or a NaN. *)
Definition float_trunc (bits : Z) : outcome Z :=
  let e := Z.land (Z.shiftr bits 52) 2047 in
  let m := Z.land bits (2 ^ 52 - 1) in
  if e =? 2047 then
    if m =? 0 then Raise OverflowError else Raise ValueError
  else
    let magnitude :=
      if e =? 0 then 0
      else if 1075 <=? e then Z.shiftl (2 ^ 52 + m) (e - 1075)
      else Z.shiftr (2 ^ 52 + m) (1075 - e) in
    Ok (if Z.testbit bits 63 then - magnitude else magnitude).

(** [int(v)] *)
Definition py_int (v : pyval) : outcome Z :=
  match v with
  | PInt z => Ok z
  | PBool b => Ok (if b then 1 else 0)
  | PFloat bits => float_trunc bits
  | PStr s | PBytes s =>
      match int_of_text s with Some z => Ok z | None => Raise ValueError end
  | PStrLone _ => Raise ValueError   (* a surrogate is no digit *)
  | PNone => Raise TypeError
  end.

(** ** UTF-8 *)

(** [b.decode('utf-8')] succeeds exactly on well-formed UTF-8: shortest
    forms only, no surrogates, nothing above U+10FFFF. *)
Definition continuation (a : ascii) : bool :=
  let n := N_of_ascii a in ((128 <=? n) && (n <=? 191))%N.

Definition in_range (lo hi : N) (a : ascii) : bool :=
  let n := N_of_ascii a in ((lo <=? n) && (n <=? hi))%N.

Fixpoint utf8_valid (s : string) : bool :=
  match s with
  | EmptyString => true
  | String a r =>
      let n := N_of_ascii a in
      if (n <? 128)%N then utf8_valid r
      else if in_range 194 223 a then
        match r with
        | String b r1 => continuation b && utf8_valid r1
        | _ => false
        end
      else if in_range 224 239 a then
        match r with
        | String b (String c r2) =>
            (if (n =? 224)%N then in_range 160 191 b
             else if (n =? 237)%N then in_range 128 159 b
             else continuation b)
            && continuation c && utf8_valid r2
        | _ => false
        end
      else if in_range 240 244 a then
        match r with
        | String b (String c (String d r3)) =>
            (if (n =? 240)%N then in_range 144 191 b
             else if (n =? 244)%N then in_range 128 143 b
             else continuation b)
            && continuation c && continuation d && utf8_valid r3
        | _ => false
        end
      else false
  end.

Definition decode_utf8 (v : pyval) : outcome pyval :=
  match v with
  | PBytes b => if utf8_valid b then Ok (PStr b) else Raise UnicodeDecodeError
  | _ => Raise AttributeError     (* None, int, ... have no [decode] *)
  end.

(** ** The world: the Redis database, the clock and what Python can reach *)

Inductive rval : Type :=
  | RString (b : string)
  | RList (l : list string).

(** An entry and, if it expires, the last instant (milliseconds) at
    which it is still there. *)
Record entry : Type := Entry { e_val : rval; e_exp : option Z }.

Record world : Type := World {
  db : gmap string entry;          (* database 0 of the local server *)
  now : Z;                         (* the server clock, in milliseconds *)
  stdout : list string;            (* lines printed so far *)
  requests_log : list string;      (* URLs on which an HTTP GET was issued *)
  web : string -> outcome string;  (* what an HTTP GET of a URL gives *)
  entropy : nat -> Z;              (* the results of [os.urandom(16)] to come *)
  drawn : nat                      (* how many of them were consumed *)
}.

Definition set_db (d : gmap string entry) (w : world) : world :=
  {| db := d; now := now w; stdout := stdout w; requests_log := requests_log w;
     web := web w; entropy := entropy w; drawn := drawn w |}.

Definition put (k : string) (e : entry) (w : world) : world :=
  set_db (<[k := e]> (db w)) w.

(** Time passes: [dt] milliseconds. *)
Definition advance (dt : Z) (w : world) : world :=
  {| db := db w; now := now w + Z.max dt 0; stdout := stdout w;
     requests_log := requests_log w; web := web w; entropy := entropy w;
     drawn := drawn w |}.

(** One more line on the standard output. *)
Definition emit (line : string) (w : world) : world :=
  {| db := db w; now := now w; stdout := stdout w ++ [line];
     requests_log := requests_log w; web := web w; entropy := entropy w;
     drawn := drawn w |}.

(** One more HTTP GET sent. *)
Definition sent (url : string) (w : world) : world :=
  {| db := db w; now := now w; stdout := stdout w;
     requests_log := requests_log w ++ [url]; web := web w;
     entropy := entropy w; drawn := drawn w |}.

(** One more block of random bytes consumed. *)
Definition draw (w : world) : world :=
  {| db := db w; now := now w; stdout := stdout w;
     requests_log := requests_log w; web := web w; entropy := entropy w;
     drawn := S (drawn w) |}.

Definition live (t : Z) (e : entry) : bool :=
  match e_exp e with
  | None => true
  | Some x => t <=? x      (* gone once the clock is past the instant *)
  end.

(** What the server sees under a key: an expired entry is no entry. *)
Definition lookup_key (w : world) (k : string) : option entry :=
  match db w !! k with
  | Some e => if live (now w) e then Some e else None
  | None => None
  end.

(** ** The monad of Python code *)

Definition M (A : Type) : Type := world -> outcome A * world.

Definition ret {A : Type} (a : A) : M A := fun w => (Ok a, w).

Definition raise {A : Type} (e : exn) : M A := fun w => (Raise e, w).

Definition lift {A : Type} (o : outcome A) : M A := fun w => (o, w).

Definition bind {A B : Type} (m : M A) (k : A -> M B) : M B :=
  fun w =>
    match m w with
    | (Ok a, w') => k a w'
    | (Raise e, w') => (Raise e, w')
    end.

Notation "x <- c ;; k" := (bind c (fun x => k))
  (at level 100, c at next level, right associativity).
Notation "c ;;; k" := (bind c (fun _ => k))
  (at level 100, right associativity).

(** [print(line)] *)
Definition print (line : string) : M unit := fun w => (Ok tt, emit line w).

(** ** The Redis server *)

Module Server.

Definition WRONGTYPE : exn :=
  ResponseError "WRONGTYPE Operation against a key holding the wrong kind of value".
Definition NOT_AN_INTEGER : exn :=
  ResponseError "value is not an integer or out of range".
Definition OVERFLOW : exn :=
  ResponseError "increment or decrement would overflow".
Definition INVALID_EXPIRE : exn :=
  ResponseError "invalid expire time in 'setex' command".

Definition FLUSHDB : M unit := fun w => (Ok tt, set_db ∅ w).

Definition SET (k v : string) : M unit :=
  fun w => (Ok tt, put k (Entry (RString v) None) w).

Definition SETEX (k : string) (seconds : Z) (v : string) : M unit :=
  fun w =>
    if seconds <=? 0 then (Raise INVALID_EXPIRE, w)
    else (Ok tt, put k (Entry (RString v) (Some (now w + seconds * 1000))) w).

Definition GET (k : string) : M (option string) :=
  fun w =>
    match lookup_key w k with
    | None => (Ok None, w)
    | Some e =>
        match e_val e with
        | RString b => (Ok (Some b), w)
        | RList _ => (Raise WRONGTYPE, w)
        end
    end.

Definition EXISTS (k : string) : M Z :=
  fun w => (Ok (match lookup_key w k with Some _ => 1 | None => 0 end), w).

(** INCR keeps the expiry of the key it overwrites. *)
Definition INCR (k : string) : M Z :=
  fun w =>
    match lookup_key w k with
    | None => (Ok 1, put k (Entry (RString (int_repr 1)) None) w)
    | Some e =>
        match e_val e with
        | RString b =>
            match string2ll b with
            | Some n =>
                if n =? LLONG_MAX then (Raise OVERFLOW, w)
                else (Ok (n + 1),
                      put k (Entry (RString (int_repr (n + 1))) (e_exp e)) w)
            | None => (Raise NOT_AN_INTEGER, w)
            end
        | RList _ => (Raise WRONGTYPE, w)
        end
    end.

Definition RPUSH (k v : string) : M Z :=
  fun w =>
    match lookup_key w k with
    | None => (Ok 1, put k (Entry (RList [v]) None) w)
    | Some e =>
        match e_val e with
        | RList l =>
            (Ok (Z.of_nat (length l) + 1),
             put k (Entry (RList (l ++ [v])) (e_exp e)) w)
        | RString _ => (Raise WRONGTYPE, w)
        end
    end.

(** The elements from [start] to [stop], both included; a negative index
    counts from the end. *)
Definition range (start stop : Z) (l : list string) : list string :=
  let len := Z.of_nat (length l) in
  let start := if start <? 0 then start + len else start in
  let stop := if stop <? 0 then stop + len else stop in
  let start := Z.max start 0 in
  if (stop <? start) || (len <=? start) then []
  else
    let stop := Z.min stop (len - 1) in
    take (Z.to_nat (stop - start + 1)) (drop (Z.to_nat start) l).

Definition LRANGE (k : string) (start stop : Z) : M (list string) :=
  fun w =>
    match lookup_key w k with
    | None => (Ok [], w)
    | Some e =>
        match e_val e with
        | RList l => (Ok (range start stop l), w)
        | RString _ => (Raise WRONGTYPE, w)
        end
    end.

End Server.

(** ** [uuid.uuid4] and [str] of a UUID *)

Definition hex_digit (n : Z) : ascii :=
  match String.get (Z.to_nat n) "0123456789abcdef" with
  | Some a => a
  | None => "0"%char
  end.

(** ['%0<width>x' % z], for [0 <= z < 16 ^ width]. *)
Fixpoint hex_fixed (width : nat) (z : Z) : string :=
  match width with
  | O => ""
  | S n => hex_fixed n (z / 16) +:+ String (hex_digit (z mod 16)) ""
  end.

(** [UUID(bytes=r, version=4).int]: the variant bits are set to RFC 4122,
    the version nibble to 4. *)
Definition uuid4_int (r : Z) : Z :=
  let i := Z.land r (Z.lnot (Z.shiftl 49152 48)) in
  let i := Z.lor i (Z.shiftl 32768 48) in
  let i := Z.land i (Z.lnot (Z.shiftl 61440 64)) in
  Z.lor i (Z.shiftl 4 76).

(** [str(u)]: 32 hexadecimal digits in groups of 8-4-4-4-12. *)
Definition uuid_str (i : Z) : string :=
  let hex := hex_fixed 32 i in
  substring 0 8 hex +:+ "-" +:+ substring 8 4 hex +:+ "-" +:+
  substring 12 4 hex +:+ "-" +:+ substring 16 4 hex +:+ "-" +:+
  substring 20 12 hex.

Definition uuid4 : M Z :=
  fun w => (Ok (uuid4_int (entropy w (drawn w) mod 2 ^ 128)), draw w).

(** The display strings of Python's [repr] that are not modelled: of a
    double (shortest round-trip digits), of a [str] and of a [bytes]
    (quotes and escapes). *)
Record builtins : Type := Builtins {
  float_repr : Z -> string;
  str_repr : string -> string;
  bytes_repr : string -> string
}.

(** The three functions as Python computes them on the doubles 0.0 and
    1.5 and on printable ASCII text without quote or backslash; the
    examples call them on nothing else. *)
Definition ascii_builtins : builtins :=
  {| float_repr := fun bits => if bits =? 4609434218613702656 then "1.5" else "0.0";
     str_repr := fun s => "'" +:+ s +:+ "'";
     bytes_repr := fun b => "b'" +:+ b +:+ "'" |}.

Section Python.

Variable py : builtins.

(** Whether [v] has a display string at all: an [int] beyond the digit
    limit has none, [repr] and [str] raise ValueError on it. *)
Definition showable (v : pyval) : bool :=
  match v with
  | PInt z => digit_count z <=? MAX_STR_DIGITS
  | _ => true
  end.

(** The text of [repr(v)], for a [v] that has one. *)
Definition repr (v : pyval) : string :=
  match v with
  | PNone => "None"
  | PBool true => "True"
  | PBool false => "False"
  | PInt z => int_repr z
  | PFloat bits => float_repr py bits
  | PStr s | PStrLone s => str_repr py s
  | PBytes b => bytes_repr py b
  end.

(** The text of [str(v)], for a [v] that has one. *)
Definition py_str (v : pyval) : string :=
  match v with
  | PStr s | PStrLone s => s
  | _ => repr v
  end.

(** ['{}'.format(v)] *)
Definition format_value (v : pyval) : outcome string :=
  if showable v then Ok (py_str v) else Raise ValueError.

Fixpoint join (sep : string) (l : list string) : string :=
  match l with
  | [] => ""
  | [x] => x
  | x :: r => x +:+ sep +:+ join sep r
  end.

(** The text of [str(args)] for the tuple of positional arguments, when
    each of them has a display string. *)
Definition str_tuple (args : list pyval) : string :=
  match args with
  | [a] => "(" +:+ repr a +:+ ",)"
  | _ => "(" +:+ join ", " (map repr args) +:+ ")"
  end.

(** [str(args)]: it takes the [repr] of each argument. *)
Definition py_str_tuple (args : list pyval) : outcome string :=
  if forallb showable args then Ok (str_tuple args) else Raise ValueError.

(** ** The redis-py client, [redis.Redis()] with its defaults *)

(** [Encoder.encode]: what goes on the wire for a key or a value. *)
Definition encode (v : pyval) : outcome string :=
  match v with
  | PBytes b => Ok b
  | PBool _ => Raise DataError
  | PInt z => repr_int z
  | PFloat bits => Ok (float_repr py bits)
  | PStr s => Ok s
  | PStrLone _ => Raise UnicodeEncodeError
  | PNone => Raise DataError
  end.

Definition redis_flushdb (asynchronous : bool) : M pyval :=
  Server.FLUSHDB ;;; ret (PBool true).

Definition redis_set (name : string) (value : pyval) : M pyval :=
  v <- lift (encode value) ;;
  Server.SET name v ;;;
  ret (PBool true).

Definition redis_setex (name : string) (time : Z) (value : pyval) : M pyval :=
  v <- lift (encode value) ;;
  Server.SETEX name time v ;;;
  ret (PBool true).

Definition redis_get (name : string) : M pyval :=
  r <- Server.GET name ;;
  ret (match r with Some b => PBytes b | None => PNone end).

Definition redis_exists (name : string) : M pyval :=
  n <- Server.EXISTS name ;; ret (PInt n).

Definition redis_incr (name : string) : M pyval :=
  n <- Server.INCR name ;; ret (PInt n).

Definition redis_rpush (name : string) (value : pyval) : M pyval :=
  v <- lift (encode value) ;;
  n <- Server.RPUSH name v ;;
  ret (PInt n).

Definition redis_lrange (name : string) (start stop : Z) : M (list pyval) :=
  l <- Server.LRANGE name start stop ;; ret (map PBytes l).

(** ** Objects, methods and callables *)

(** What an attribute [_redis] holds. *)
Inductive attribute : Type :=
  | Redis                  (* a [redis.Redis] client of the local server *)
  | NotRedis (v : pyval).

(** An instance, as far as this program looks at it: its attribute
    [_redis], if it has one. *)
Record object : Type := Object { _redis : option attribute }.

(** [isinstance(a, redis.Redis)] *)
Definition is_Redis (a : attribute) : bool :=
  match a with
  | Redis => true
  | NotRedis _ => false
  end.

(** [self._redis]: AttributeError when the attribute is missing. *)
Definition getattr_redis (self : object) : M attribute :=
  match _redis self with
  | Some a => ret a
  | None => raise AttributeError
  end.

(** [self._redis.<command>]: only a client has the commands. *)
Definition client (self : object) : M unit :=
  a <- getattr_redis self ;;
  if is_Redis a then ret tt else raise AttributeError.

Definition kwargs : Type := list (string * pyval).

(** A function taking [self, *args, **kwargs], with the [__qualname__]
    that [functools.wraps] copies onto its wrapper. *)
Record method : Type := Method {
  __qualname__ : string;
  call : object -> list pyval -> kwargs -> M pyval
}.

(** What [replay] may be handed. *)
Inductive callable : Type :=
  | FnNone
  | Function (qualname : string)                    (* no [__self__] *)
  | BoundMethod (self : object) (qualname : string).

(** Binding a call to a wrapper [invoker(self, *args, **kwargs)]: a
    keyword named [self] is a second value for the first parameter. *)
Definition bind_invoker (kw : kwargs) : outcome unit :=
  if existsb (fun p => String.eqb (fst p) "self") kw
  then Raise TypeError else Ok tt.

(** ** exercise.py *)

Definition count_calls (m : method) : method :=
  {| __qualname__ := __qualname__ m;
     call := fun self args kw =>
       lift (bind_invoker kw) ;;;
       a <- getattr_redis self ;;
       (if is_Redis a then redis_incr (__qualname__ m) ;;; ret tt else ret tt) ;;;
       call m self args kw |}.

Definition call_history (m : method) : method :=
  {| __qualname__ := __qualname__ m;
     call := fun self args kw =>
       let inputs := __qualname__ m +:+ ":inputs" in
       let outputs := __qualname__ m +:+ ":outputs" in
       lift (bind_invoker kw) ;;;
       a <- getattr_redis self ;;
       (if is_Redis a
        then shown <- lift (py_str_tuple args) ;;
             redis_rpush inputs (PStr shown) ;;; ret tt
        else ret tt) ;;;
       method_return <- call m self args kw ;;
       a' <- getattr_redis self ;;
       (if is_Redis a' then redis_rpush outputs method_return ;;; ret tt
        else ret tt) ;;;
       ret method_return |}.

(** [v != 0] *)
Definition ne_zero (v : pyval) : bool :=
  match v with
  | PInt z => negb (z =? 0)
  | PBool b => b
  | PFloat bits => negb (Z.land bits (2 ^ 63 - 1) =? 0)
  | _ => true
  end.

Fixpoint print_pairs (function_name : string) (ins outs : list pyval) : M unit :=
  match ins, outs with
  | function_input :: ins', function_output :: outs' =>
      decoded <- lift (decode_utf8 function_input) ;;
      shown <- lift (format_value decoded) ;;
      output <- lift (format_value function_output) ;;
      print (function_name +:+ "(*" +:+ shown +:+ ") -> " +:+ output) ;;;
      print_pairs function_name ins' outs'
  | _, _ => ret tt
  end.

Definition replay (fn : callable) : M unit :=
  match fn with
  | FnNone | Function _ => ret tt
  | BoundMethod self function_name =>
      match _redis self with
      | Some Redis =>
          let inputs := function_name +:+ ":inputs" in
          let outputs := function_name +:+ ":outputs" in
          found <- redis_exists function_name ;;
          function_call_count <-
            (if ne_zero found
             then stored <- redis_get function_name ;; lift (py_int stored)
             else ret 0) ;;
          count <- lift (repr_int function_call_count) ;;
          print (function_name +:+ " was called " +:+ count +:+ " times:") ;;;
          function_inputs <- redis_lrange inputs 0 (-1) ;;
          function_outputs <- redis_lrange outputs 0 (-1) ;;
          print_pairs function_name function_inputs function_outputs
      | _ => ret tt
      end
  end.

(** [Cache.__init__] *)
Definition Cache_init : M object :=
  let self := {| _redis := Some Redis |} in
  redis_flushdb true ;;;
  ret self.

(** How a call binds the one parameter [data] of [store(self, data)]. *)
Definition bind_data (args : list pyval) (kw : kwargs) : outcome pyval :=
  match args, kw with
  | [data], [] => Ok data
  | [], [(name, data)] => if String.eqb name "data" then Ok data else Raise TypeError
  | _, _ => Raise TypeError
  end.

(** The body of [Cache.store], before decoration. *)
Definition store : method :=
  {| __qualname__ := "Cache.store";
     call := fun self args kw =>
       data <- lift (bind_data args kw) ;;
       u <- uuid4 ;;
       let storage_key := uuid_str u in
       client self ;;;
       redis_set storage_key data ;;;
       ret (PStr storage_key) |}.

(** [Cache.store], as the class has it: [@call_history @count_calls]. *)
Definition Cache_store : method := call_history (count_calls store).

Definition Cache_get (self : object) (key : string)
    (fn : option (pyval -> M pyval)) : M pyval :=
  client self ;;;
  stored_data <- redis_get key ;;
  match fn with
  | Some f => f stored_data
  | None => ret stored_data
  end.

Definition Cache_get_str (self : object) (key : string) : M pyval :=
  Cache_get self key (Some (fun x => lift (decode_utf8 x))).

Definition Cache_get_int (self : object) (key : string) : M pyval :=
  Cache_get self key (Some (fun x => z <- lift (py_int x) ;; ret (PInt z))).

(** ** web.py *)

(** [requests.get(url).text] *)
Definition requests_get_text (url : string) : M pyval :=
  fun w =>
    match web w url with
    | Ok body => (Ok (PStr body), sent url w)
    | Raise e => (Raise e, sent url w)
    end.

Definition cache_response (method : string -> M pyval) (url : string) : M pyval :=
  redis_incr ("count:" +:+ url) ;;;
  result <- redis_get ("result:" +:+ url) ;;
  if truthy result then lift (decode_utf8 result)
  else
    result <- method url ;;
    redis_setex ("result:" +:+ url) 10 result ;;;
    ret result.

Definition get_page : string -> M pyval := cache_response requests_get_text.


(** ** What the claims speak of *)

(** The expiry a key carries, if it is there and has one. *)
Definition exp_of (w : world) (k : string) : option Z :=
  match lookup_key w k with
  | Some e => e_exp e
  | None => None
  end.

(** The sequence under a key; a key that is not there is the empty
    sequence, a key holding a string is no sequence. *)
Definition list_at (w : world) (k : string) : option (list string) :=
  match lookup_key w k with
  | None => Some []
  | Some e =>
      match e_val e with
      | RList l => Some l
      | RString _ => None
      end
  end.

(** The counter under a key; a key that is not there counts 0. *)
Definition counter_at (w : world) (k : string) : option Z :=
  match lookup_key w k with
  | None => Some 0
  | Some e =>
      match e_val e with
      | RString b => string2ll b
      | RList _ => None
      end
  end.

(** The key that the next call of [uuid.uuid4] will give. *)
Definition next_key (w : world) : string :=
  uuid_str (uuid4_int (entropy w (drawn w) mod 2 ^ 128)).

(** The instance that [Cache()] returns. *)
Definition a_cache : object := {| _redis := Some Redis |}.

(** Calls of [cache.store], one after the other; the first one that
    raises ends the run. *)
Fixpoint run_calls (self : object) (calls : list (list pyval * kwargs))
    : M (list pyval) :=
  match calls with
  | [] => ret []
  | (args, kw) :: rest =>
      key <- call Cache_store self args kw ;;
      keys <- run_calls self rest ;;
      ret (key :: keys)
  end.

(** [fn] is an instrumented operation bound to a live Cache-backed
    instance: the class decorates [Cache.store] and nothing else. *)
Definition instrumented (fn : callable) : bool :=
  match fn with
  | BoundMethod self qualname =>
      match _redis self with
      | Some Redis => String.eqb qualname "Cache.store"
      | _ => false
      end
  | _ => false
  end.

(** [fn] leads to no client at all: it is [None], it has no [__self__],
    or its owner holds no [redis.Redis] under [_redis]. *)
Definition no_client (fn : callable) : bool :=
  match fn with
  | BoundMethod self _ =>
      match _redis self with
      | Some Redis => false
      | _ => true
      end
  | _ => true
  end.

(** A world to run the examples in: an empty database at instant 0, a
    web with one page, one empty page and one dead host. *)
Definition sample_web (url : string) : outcome string :=
  if String.eqb url "http://empty" then Ok ""
  else if String.eqb url "http://down" then Raise (RequestException "refused")
  else Ok "<html>".

Definition sample_world : world :=
  {| db := ∅; now := 0; stdout := []; requests_log := []; web := sample_web;
     entropy := fun n => Z.of_nat n * 12345678901234567890123; drawn := 0 |}.

(** The world after the two writes that come before the body of [store]:
    the arguments are recorded, the call is counted. *)
Definition entered (w : world) (args : list pyval) (li : list string) (n : Z)
    : world :=
  put "Cache.store"
    (Entry (RString (int_repr (n + 1))) (exp_of w "Cache.store"))
    (put "Cache.store:inputs"
       (Entry (RList (li ++ [str_tuple args])) (exp_of w "Cache.store:inputs"))
       w).

(** Three calls, as in [store("a")], [store("b")], [store("c")]. *)
Definition sample_calls : list (list pyval * kwargs) :=
  [([PStr "a"], []); ([PStr "b"], []); ([PStr "c"], [])].

(** The same world with one entry in the database. *)
Definition busy_world : world :=
  put "greeting" (Entry (RString "hello") None) sample_world.

(** Decimal digits and nothing else. *)
Fixpoint digits_only (s : string) : bool :=
  match s with
  | EmptyString => true
  | String a r => is_digit a && digits_only r
  end.

(** Several more lines on the standard output. *)
Fixpoint emits (lines : list string) (w : world) : world :=
  match lines with
  | [] => w
  | line :: rest => emits rest (emit line w)
  end.

(** Code that leaves the world as it found it, but for what it prints. *)
Definition only_prints {A : Type} (m : M A) : Prop :=
  forall w, exists lines, snd (m w) = emits lines w.

(** The sample world with a string where the instrumentation expects
    something else. *)
Definition jammed_world (k : string) : world :=
  put k (Entry (RString "oops") None) sample_world.

(** A method [tagged(self, n, *, tag)] to try a decorator on: it
    returns what it is given under the keyword [tag]. *)
Definition tagged : method :=
  {| __qualname__ := "Probe.tagged";
     call := fun _ args kw =>
       match args, kw with
       | [_], [(name, v)] =>
           if String.eqb name "tag" then ret v else raise TypeError
       | _, _ => raise TypeError
       end |}.

(** ** Lemmas on the monad *)

Lemma bind_ok {A B : Type} (m : M A) (k : A -> M B) w a w' :
  m w = (Ok a, w') -> bind m k w = k a w'.
Proof. intros H. unfold bind. now rewrite H. Qed.

Lemma bind_raise {A B : Type} (m : M A) (k : A -> M B) w e w' :
  m w = (Raise e, w') -> bind m k w = (Raise e, w').
Proof. intros H. unfold bind. now rewrite H. Qed.

(** ** Lemmas on decimal text *)

Lemma to_int_proper z : Z.to_int z <> Decimal.Pos Decimal.Nil
                        /\ Z.to_int z <> Decimal.Neg Decimal.Nil.
Proof.
  destruct z as [|p|p]; simpl; split; try discriminate.
  - intros [= H]. now apply Unsigned.to_uint_nonnil in H.
  - intros [= H]. now apply Unsigned.to_uint_nonnil in H.
Qed.

Lemma string2ll_int_repr z :
  LLONG_MIN <= z <= LLONG_MAX -> string2ll (int_repr z) = Some z.
Proof.
  intros [Hlo Hhi]. unfold string2ll, int_repr.
  destruct (to_int_proper z) as [Hp Hn].
  rewrite NilZero.isi by assumption.
  cbv zeta. rewrite DecimalZ.of_to.
  rewrite String.eqb_refl.
  apply Z.leb_le in Hlo, Hhi. now rewrite Hlo, Hhi.
Qed.

Lemma string2ll_spec s z :
  string2ll s = Some z -> s = int_repr z /\ LLONG_MIN <= z <= LLONG_MAX.
Proof.
  unfold string2ll. destruct (NilZero.int_of_string s) as [d|]; [|discriminate].
  cbv zeta.
  destruct (String.eqb_spec (int_repr (Z.of_int d)) s) as [He|]; [|discriminate].
  destruct (Z.leb_spec LLONG_MIN (Z.of_int d)); [|discriminate].
  destruct (Z.leb_spec (Z.of_int d) LLONG_MAX); [|discriminate].
  simpl. intros [= <-]. auto.
Qed.

(** ** Lemmas on keys *)

Lemma length_append (s t : string) :
  String.length (s +:+ t) = (String.length s + String.length t)%nat.
Proof. induction s as [|a s IH]; simpl; [reflexivity | now rewrite IH]. Qed.

Lemma length_substring (n m : nat) (s : string) :
  (n + m <= String.length s)%nat -> String.length (substring n m s) = m.
Proof.
  revert n m. induction s as [|a s IH]; intros n m H; simpl in H.
  - assert (n = 0%nat) by lia. assert (m = 0%nat) by lia. now subst.
  - destruct n as [|n]; simpl.
    + destruct m as [|m]; simpl; [reflexivity|]. f_equal. apply IH. simpl. lia.
    + apply IH. lia.
Qed.

Lemma length_hex_fixed (width : nat) (z : Z) :
  String.length (hex_fixed width z) = width.
Proof.
  revert z. induction width as [|n IH]; intros z; simpl; [reflexivity|].
  rewrite length_append, IH. simpl. lia.
Qed.

Lemma length_uuid_str (i : Z) : String.length (uuid_str i) = 36%nat.
Proof.
  unfold uuid_str. cbv zeta.
  repeat rewrite length_append.
  repeat rewrite length_substring by (rewrite length_hex_fixed; lia).
  reflexivity.
Qed.

(** A generated key is none of the three keys of the instrumentation. *)
Lemma uuid_str_fresh (i : Z) :
  uuid_str i <> "Cache.store"
  /\ uuid_str i <> "Cache.store:inputs"
  /\ uuid_str i <> "Cache.store:outputs".
Proof.
  pose proof (length_uuid_str i) as H.
  repeat split; intros E; rewrite E in H; discriminate H.
Qed.

(** ** Lemmas on the database *)

Lemma lookup_key_put_eq k e w :
  live (now w) e = true -> lookup_key (put k e w) k = Some e.
Proof.
  intros H. unfold lookup_key, put. simpl.
  rewrite lookup_insert_eq. now rewrite H.
Qed.

Lemma lookup_key_put_ne k k' e w :
  k <> k' -> lookup_key (put k e w) k' = lookup_key w k'.
Proof.
  intros H. unfold lookup_key, put. simpl.
  now rewrite lookup_insert_ne.
Qed.

Lemma db_put_ne k k' e w : k <> k' -> db (put k e w) !! k' = db w !! k'.
Proof. intros H. unfold put. simpl. now rewrite lookup_insert_ne. Qed.

Lemma live_exp_of w k v : live (now w) (Entry v (exp_of w k)) = true.
Proof.
  unfold exp_of, lookup_key.
  destruct (db w !! k) as [e|]; [|reflexivity].
  destruct (live (now w) e) eqn:H; [|reflexivity].
  exact H.
Qed.

Lemma list_at_put_eq k l x w :
  live (now w) (Entry (RList l) x) = true ->
  list_at (put k (Entry (RList l) x) w) k = Some l.
Proof. intros H. unfold list_at. now rewrite lookup_key_put_eq. Qed.

Lemma list_at_put_ne k k' e w : k <> k' -> list_at (put k e w) k' = list_at w k'.
Proof. intros H. unfold list_at. now rewrite lookup_key_put_ne. Qed.

Lemma counter_at_put_eq k z x w :
  live (now w) (Entry (RString (int_repr z)) x) = true ->
  LLONG_MIN <= z <= LLONG_MAX ->
  counter_at (put k (Entry (RString (int_repr z)) x) w) k = Some z.
Proof.
  intros H Hz. unfold counter_at. rewrite lookup_key_put_eq by exact H.
  simpl. now apply string2ll_int_repr.
Qed.

Lemma counter_at_put_ne k k' e w :
  k <> k' -> counter_at (put k e w) k' = counter_at w k'.
Proof. intros H. unfold counter_at. now rewrite lookup_key_put_ne. Qed.

Lemma counter_at_range w k n :
  counter_at w k = Some n -> LLONG_MIN <= n <= LLONG_MAX.
Proof.
  unfold counter_at. destruct (lookup_key w k) as [e|].
  - destruct (e_val e); [|discriminate].
    intros H. now apply string2ll_spec in H.
  - intros [= <-]. unfold LLONG_MIN, LLONG_MAX. lia.
Qed.

(** ** What the server's commands do *)

Lemma RPUSH_ok k v w l :
  list_at w k = Some l ->
  Server.RPUSH k v w =
    (Ok (Z.of_nat (length l) + 1),
     put k (Entry (RList (l ++ [v])) (exp_of w k)) w).
Proof.
  unfold list_at, exp_of, Server.RPUSH.
  destruct (lookup_key w k) as [e|].
  - destruct (e_val e); [discriminate|]. now intros [= <-].
  - now intros [= <-].
Qed.

Lemma RPUSH_wrongtype k v w :
  list_at w k = None -> Server.RPUSH k v w = (Raise Server.WRONGTYPE, w).
Proof.
  unfold list_at, Server.RPUSH.
  destruct (lookup_key w k) as [e|]; [|discriminate].
  now destruct (e_val e).
Qed.

Lemma INCR_ok k w n :
  counter_at w k = Some n -> n <> LLONG_MAX ->
  Server.INCR k w =
    (Ok (n + 1), put k (Entry (RString (int_repr (n + 1))) (exp_of w k)) w).
Proof.
  unfold counter_at, exp_of, Server.INCR.
  destruct (lookup_key w k) as [e|].
  - destruct (e_val e); [|discriminate].
    intros -> Hn. apply Z.eqb_neq in Hn. now rewrite Hn.
  - now intros [= <-] _.
Qed.

Lemma INCR_raises k w :
  counter_at w k = None \/ counter_at w k = Some LLONG_MAX ->
  exists e, Server.INCR k w = (Raise e, w).
Proof.
  unfold counter_at, Server.INCR.
  destruct (lookup_key w k) as [e|].
  - destruct (e_val e).
    + intros [-> | ->]; [eauto|]. rewrite Z.eqb_refl. eauto.
    + eauto.
  - intros [H|H]; discriminate H.
Qed.

Lemma range_all (l : list string) : Server.range 0 (-1) l = l.
Proof.
  unfold Server.range.
  change (0 <? 0) with false. change (-1 <? 0) with true.
  cbv beta iota zeta. rewrite Z.max_id.
  destruct l as [|x l]; [reflexivity|].
  set (len := Z.of_nat (length (x :: l))).
  assert (0 < len) by (unfold len; simpl length; lia).
  destruct (Z.ltb_spec (-1 + len) 0); [lia|].
  destruct (Z.leb_spec len 0); [lia|].
  cbv beta iota. simpl orb. cbv iota.
  rewrite Z.min_r by lia.
  replace (Z.to_nat (len - 1 - 0 + 1)) with (length (x :: l)) by (unfold len; lia).
  change (Z.to_nat 0) with 0%nat. rewrite drop_0. apply firstn_all.
Qed.

(** ** What the client's methods do *)

Lemma redis_rpush_ok k v b w l :
  encode v = Ok b -> list_at w k = Some l ->
  redis_rpush k v w =
    (Ok (PInt (Z.of_nat (length l) + 1)),
     put k (Entry (RList (l ++ [b])) (exp_of w k)) w).
Proof.
  intros He Hl. unfold redis_rpush, lift. rewrite He.
  erewrite bind_ok by reflexivity.
  erewrite bind_ok by (apply RPUSH_ok; exact Hl).
  reflexivity.
Qed.

Lemma redis_incr_ok k w n :
  counter_at w k = Some n -> n <> LLONG_MAX ->
  redis_incr k w =
    (Ok (PInt (n + 1)),
     put k (Entry (RString (int_repr (n + 1))) (exp_of w k)) w).
Proof.
  intros Hc Hn. unfold redis_incr.
  erewrite bind_ok by (apply INCR_ok; eassumption).
  reflexivity.
Qed.

Lemma redis_set_ok k v b w :
  encode v = Ok b ->
  redis_set k v w = (Ok (PBool true), put k (Entry (RString b) None) w).
Proof. intros He. unfold redis_set, lift. now rewrite He. Qed.

Lemma redis_set_raises k v e w :
  encode v = Raise e -> redis_set k v w = (Raise e, w).
Proof. intros He. unfold redis_set, lift. now rewrite He. Qed.

Lemma redis_get_string k w e b :
  lookup_key w k = Some e -> e_val e = RString b ->
  redis_get k w = (Ok (PBytes b), w).
Proof.
  intros H Hv. unfold redis_get, Server.GET, bind. now rewrite H, Hv.
Qed.

Lemma redis_get_absent k w :
  lookup_key w k = None -> redis_get k w = (Ok PNone, w).
Proof. intros H. unfold redis_get, Server.GET, bind. now rewrite H. Qed.

(** ** What the decorators and [store] do *)

(** The body of [store], in full: it binds [data], draws a key, writes. *)
Lemma store_run args kw w :
  call store a_cache args kw w =
    match bind_data args kw with
    | Raise e => (Raise e, w)
    | Ok data =>
        match encode data with
        | Raise e => (Raise e, draw w)
        | Ok b =>
            (Ok (PStr (next_key w)),
             put (next_key w) (Entry (RString b) None) (draw w))
        end
    end.
Proof.
  cbn [call store]. unfold bind at 1. unfold lift at 1.
  destruct (bind_data args kw) as [data|e]; [|reflexivity].
  unfold bind at 1. unfold uuid4 at 1.
  fold (next_key w).
  erewrite bind_ok by reflexivity.
  destruct (encode data) as [b|e] eqn:He.
  - erewrite bind_ok by (apply redis_set_ok; exact He). reflexivity.
  - erewrite bind_raise by (apply redis_set_raises; exact He). reflexivity.
Qed.

(** [count_calls] on a counter that can still count: one increment, then
    the wrapped method with the same arguments. *)
Lemma count_calls_run (m : method) args kw w n :
  bind_invoker kw = Ok tt ->
  counter_at w (__qualname__ m) = Some n -> n <> LLONG_MAX ->
  call (count_calls m) a_cache args kw w =
    call m a_cache args kw
      (put (__qualname__ m)
         (Entry (RString (int_repr (n + 1))) (exp_of w (__qualname__ m))) w).
Proof.
  intros Hk Hc Hn. cbn [call count_calls]. unfold lift at 1. rewrite Hk.
  erewrite bind_ok by reflexivity.
  erewrite bind_ok by reflexivity. cbn [is_Redis].
  erewrite bind_ok; [reflexivity|].
  erewrite bind_ok by (apply redis_incr_ok; eassumption).
  reflexivity.
Qed.

(** [count_calls] on a key that holds no counter, or a full one: the
    increment raises and the wrapped method is not called. *)
Lemma count_calls_stuck (m : method) args kw w :
  bind_invoker kw = Ok tt ->
  counter_at w (__qualname__ m) = None
  \/ counter_at w (__qualname__ m) = Some LLONG_MAX ->
  exists e, call (count_calls m) a_cache args kw w = (Raise e, w).
Proof.
  intros Hk H. apply INCR_raises in H as [e He]. exists e.
  cbn [call count_calls]. unfold lift at 1. rewrite Hk.
  erewrite bind_ok by reflexivity.
  erewrite bind_ok by reflexivity. cbn [is_Redis].
  erewrite bind_raise; [reflexivity|].
  erewrite bind_raise; [reflexivity|].
  unfold redis_incr. erewrite bind_raise by exact He. reflexivity.
Qed.

(** A call that the wrapper cannot bind, or whose arguments have no
    display string, stops there. *)
Lemma call_history_refused (m : method) args kw w :
  bind_invoker kw <> Ok tt \/ forallb showable args = false ->
  exists e, call (call_history m) a_cache args kw w = (Raise e, w).
Proof.
  intros H. cbn [call call_history]. cbv zeta. unfold lift at 1.
  destruct (bind_invoker kw) as [[]|e] eqn:Hk.
  - destruct H as [H|H]; [now elim H|]. exists ValueError.
    erewrite bind_ok by reflexivity.
    erewrite bind_ok by reflexivity. cbn [is_Redis].
    erewrite bind_raise; [reflexivity|].
    erewrite bind_raise; [reflexivity|].
    unfold lift, py_str_tuple. now rewrite H.
  - exists e. reflexivity.
Qed.

(** [call_history] on a key ":inputs" that holds a sequence: the display
    string of the positional arguments is appended, the wrapped method
    gets the arguments as they came, and what it returns is appended
    under ":outputs". *)
Lemma call_history_run (m : method) args kw w li :
  bind_invoker kw = Ok tt -> forallb showable args = true ->
  list_at w (__qualname__ m +:+ ":inputs") = Some li ->
  call (call_history m) a_cache args kw w =
    let inputs := __qualname__ m +:+ ":inputs" in
    let outputs := __qualname__ m +:+ ":outputs" in
    let w1 :=
      put inputs (Entry (RList (li ++ [str_tuple args])) (exp_of w inputs)) w in
    match call m a_cache args kw w1 with
    | (Ok method_return, w2) =>
        (redis_rpush outputs method_return ;;; ret method_return) w2
    | (Raise e, w2) => (Raise e, w2)
    end.
Proof.
  intros Hk Hs Hli. cbn [call call_history]. cbv zeta.
  unfold lift at 1. rewrite Hk.
  erewrite bind_ok by reflexivity.
  erewrite bind_ok by reflexivity. cbn [is_Redis].
  erewrite bind_ok.
  2:{ unfold lift, py_str_tuple. rewrite Hs.
      erewrite bind_ok by reflexivity.
      erewrite bind_ok by (apply redis_rpush_ok; [reflexivity | exact Hli]).
      reflexivity. }
  unfold bind at 1.
  destruct (call m a_cache args kw _) as [[r|e] w2]; [|reflexivity].
  erewrite bind_ok by reflexivity. cbn [is_Redis].
  unfold bind. destruct (redis_rpush _ r w2) as [[x|e] w3]; reflexivity.
Qed.

Lemma call_history_stuck (m : method) args kw w :
  bind_invoker kw = Ok tt -> forallb showable args = true ->
  list_at w (__qualname__ m +:+ ":inputs") = None ->
  call (call_history m) a_cache args kw w = (Raise Server.WRONGTYPE, w).
Proof.
  intros Hk Hs Hli. cbn [call call_history]. cbv zeta.
  unfold lift at 1. rewrite Hk.
  erewrite bind_ok by reflexivity.
  erewrite bind_ok by reflexivity. cbn [is_Redis].
  erewrite bind_raise; [reflexivity|].
  unfold lift, py_str_tuple. rewrite Hs.
  erewrite bind_ok by reflexivity.
  erewrite bind_raise; [reflexivity|].
  unfold redis_rpush.
  erewrite bind_ok by reflexivity.
  erewrite bind_raise by (apply RPUSH_wrongtype; exact Hli). reflexivity.
Qed.

Ltac store_keys :=
  change ("Cache.store" +:+ ":inputs") with "Cache.store:inputs" in *;
  change ("Cache.store" +:+ ":outputs") with "Cache.store:outputs" in *.

Lemma encode_showable (v : pyval) (b : string) :
  encode v = Ok b -> showable v = true.
Proof.
  destruct v; simpl; try reflexivity. unfold repr_int.
  now destruct (digit_count z <=? MAX_STR_DIGITS).
Qed.

(** Arguments that [store] can bind to [data], with a value the client
    can encode, pass the wrappers' binding and have a display string. *)
Lemma bound_data args kw data b :
  bind_data args kw = Ok data -> encode data = Ok b ->
  bind_invoker kw = Ok tt /\ forallb showable args = true.
Proof.
  unfold bind_data. intros Hd He.
  destruct args as [|a [|a' args]]; destruct kw as [|[k v] [|p kw]];
    try discriminate Hd.
  - destruct (String.eqb_spec k "data") as [->|]; [|discriminate Hd].
    split; reflexivity.
  - injection Hd as ->. split; [reflexivity|].
    simpl. now rewrite (encode_showable data b He).
Qed.

(** The world after a complete call of [cache.store]. *)
Lemma Cache_store_ok args kw w data b li lo n :
  bind_data args kw = Ok data -> encode data = Ok b ->
  list_at w "Cache.store:inputs" = Some li ->
  counter_at w "Cache.store" = Some n -> n <> LLONG_MAX ->
  list_at w "Cache.store:outputs" = Some lo ->
  exists w',
    call Cache_store a_cache args kw w = (Ok (PStr (next_key w)), w')
    /\ list_at w' "Cache.store:inputs" = Some (li ++ [str_tuple args])%list
    /\ counter_at w' "Cache.store" = Some (n + 1)
    /\ list_at w' "Cache.store:outputs" = Some (lo ++ [next_key w])%list
    /\ lookup_key w' (next_key w) = Some (Entry (RString b) None)
    /\ (forall k, k <> next_key w -> k <> "Cache.store" ->
          k <> "Cache.store:inputs" -> k <> "Cache.store:outputs" ->
          db w' !! k = db w !! k)
    /\ now w' = now w /\ entropy w' = entropy w /\ drawn w' = S (drawn w).
Proof.
  intros Hd He Hli Hc Hn Hlo.
  destruct (bound_data args kw data b Hd He) as [Hk Hs].
  destruct (uuid_str_fresh (uuid4_int (entropy w (drawn w) mod 2 ^ 128)))
    as (Fc & Fi & Fo). fold (next_key w) in Fc, Fi, Fo.
  pose proof (counter_at_range _ _ _ Hc) as Hr.
  unfold Cache_store.
  rewrite (call_history_run _ args kw w li Hk Hs) by exact Hli.
  cbv zeta. cbn [__qualname__ count_calls store]. store_keys.
  set (w1 := put "Cache.store:inputs" _ w).
  rewrite (count_calls_run store args kw w1 n Hk);
    [| unfold w1; cbn [__qualname__ store];
       rewrite counter_at_put_ne by discriminate; exact Hc | exact Hn].
  cbn [__qualname__ store].
  set (w2 := put "Cache.store" _ w1).
  rewrite store_run, Hd, He.
  change (next_key w2) with (next_key w).
  set (w3 := put (next_key w) _ (draw w2)).
  assert (Hlo3 : list_at w3 "Cache.store:outputs" = Some lo).
  { unfold w3. rewrite list_at_put_ne by exact Fo.
    change (list_at (draw w2) "Cache.store:outputs")
      with (list_at w2 "Cache.store:outputs").
    unfold w2. rewrite list_at_put_ne by discriminate.
    unfold w1. rewrite list_at_put_ne by discriminate. exact Hlo. }
  erewrite bind_ok by (apply redis_rpush_ok; [reflexivity | exact Hlo3]).
  eexists. split; [reflexivity|].
  set (w4 := put "Cache.store:outputs" _ w3).
  repeat split.
  - unfold w4. rewrite list_at_put_ne by discriminate.
    unfold w3. rewrite list_at_put_ne by exact Fi.
    change (list_at (draw w2) "Cache.store:inputs")
      with (list_at w2 "Cache.store:inputs").
    unfold w2. rewrite list_at_put_ne by discriminate.
    unfold w1. apply list_at_put_eq, live_exp_of.
  - unfold w4. rewrite counter_at_put_ne by discriminate.
    unfold w3. rewrite counter_at_put_ne by exact Fc.
    change (counter_at (draw w2) "Cache.store")
      with (counter_at w2 "Cache.store").
    unfold w2. apply counter_at_put_eq; [apply live_exp_of|].
    unfold LLONG_MAX, LLONG_MIN in *. lia.
  - unfold w4. apply list_at_put_eq, live_exp_of.
  - unfold w4. rewrite lookup_key_put_ne by (intros E; symmetry in E; exact (Fo E)).
    unfold w3. apply lookup_key_put_eq. reflexivity.
  - intros k K1 K2 K3 K4.
    unfold w4. rewrite db_put_ne by congruence.
    unfold w3. rewrite db_put_ne by congruence.
    change (db (draw w2)) with (db w2).
    unfold w2. rewrite db_put_ne by congruence.
    unfold w1. rewrite db_put_ne by congruence. reflexivity.
Qed.

Lemma redis_rpush_wrongtype k v b w :
  encode v = Ok b -> list_at w k = None ->
  redis_rpush k v w = (Raise Server.WRONGTYPE, w).
Proof.
  intros He Hl. unfold redis_rpush, lift. rewrite He.
  erewrite bind_ok by reflexivity.
  erewrite bind_raise by (apply RPUSH_wrongtype; exact Hl).
  reflexivity.
Qed.

Lemma exp_of_put_ne k k' e w : k <> k' -> exp_of (put k e w) k' = exp_of w k'.
Proof. intros H. unfold exp_of. now rewrite lookup_key_put_ne. Qed.

(** A call of [cache.store] in full, when the instrumentation finds a
    sequence under ":inputs" and a counter that can still count. *)
Lemma Cache_store_run args kw w li n :
  bind_invoker kw = Ok tt -> forallb showable args = true ->
  list_at w "Cache.store:inputs" = Some li ->
  counter_at w "Cache.store" = Some n -> n <> LLONG_MAX ->
  call Cache_store a_cache args kw w =
    match bind_data args kw with
    | Raise e => (Raise e, entered w args li n)
    | Ok data =>
        match encode data with
        | Raise e => (Raise e, draw (entered w args li n))
        | Ok b =>
            let w3 :=
              put (next_key w) (Entry (RString b) None)
                (draw (entered w args li n)) in
            match list_at w "Cache.store:outputs" with
            | Some lo =>
                (Ok (PStr (next_key w)),
                 put "Cache.store:outputs"
                   (Entry (RList (lo ++ [next_key w]))
                      (exp_of w "Cache.store:outputs")) w3)
            | None => (Raise Server.WRONGTYPE, w3)
            end
        end
    end.
Proof.
  intros Hk Hs Hli Hc Hn.
  destruct (uuid_str_fresh (uuid4_int (entropy w (drawn w) mod 2 ^ 128)))
    as (Fc & Fi & Fo). fold (next_key w) in Fc, Fi, Fo.
  unfold Cache_store.
  rewrite (call_history_run _ args kw w li Hk Hs) by exact Hli.
  cbv zeta. cbn [__qualname__ count_calls store]. store_keys.
  rewrite (count_calls_run store args kw _ n Hk);
    [| cbn [__qualname__ store];
       rewrite counter_at_put_ne by discriminate; exact Hc | exact Hn].
  cbn [__qualname__ store].
  rewrite exp_of_put_ne by discriminate.
  fold (entered w args li n). set (w2 := entered w args li n).
  rewrite store_run.
  destruct (bind_data args kw) as [data|e]; [|reflexivity].
  destruct (encode data) as [b|e]; [|reflexivity].
  change (next_key w2) with (next_key w). cbv zeta.
  set (w3 := put (next_key w) _ (draw w2)).
  assert (Hl3 : list_at w3 "Cache.store:outputs" = list_at w "Cache.store:outputs").
  { unfold w3. rewrite list_at_put_ne by exact Fo.
    change (list_at (draw w2) "Cache.store:outputs")
      with (list_at w2 "Cache.store:outputs").
    unfold w2, entered. now rewrite !list_at_put_ne by discriminate. }
  assert (Hx3 : exp_of w3 "Cache.store:outputs" = exp_of w "Cache.store:outputs").
  { unfold w3. rewrite exp_of_put_ne by exact Fo.
    change (exp_of (draw w2) "Cache.store:outputs")
      with (exp_of w2 "Cache.store:outputs").
    unfold w2, entered. now rewrite !exp_of_put_ne by discriminate. }
  destruct (list_at w "Cache.store:outputs") as [lo|].
  - erewrite bind_ok by (apply redis_rpush_ok; [reflexivity | exact Hl3]).
    rewrite Hx3. reflexivity.
  - erewrite bind_raise by (eapply redis_rpush_wrongtype; [reflexivity | exact Hl3]).
    reflexivity.
Qed.

(** What the two writes leave behind. *)
Lemma entered_views w args li n :
  LLONG_MIN <= n < LLONG_MAX ->
  list_at (entered w args li n) "Cache.store:inputs"
    = Some (li ++ [str_tuple args])%list
  /\ counter_at (entered w args li n) "Cache.store" = Some (n + 1)
  /\ (forall k, k <> "Cache.store" -> k <> "Cache.store:inputs" ->
        db (entered w args li n) !! k = db w !! k).
Proof.
  intros Hn. unfold entered. repeat split.
  - rewrite list_at_put_ne by discriminate. apply list_at_put_eq, live_exp_of.
  - apply counter_at_put_eq.
    + unfold live; simpl. pose proof (live_exp_of w "Cache.store" (RList [])) as H.
      exact H.
    + lia.
  - intros k K1 K2. now rewrite !db_put_ne by congruence.
Qed.

(** When the counter cannot count, the call stops after recording its
    arguments. *)
Lemma Cache_store_uncounted args kw w li :
  bind_invoker kw = Ok tt -> forallb showable args = true ->
  list_at w "Cache.store:inputs" = Some li ->
  counter_at w "Cache.store" = None
  \/ counter_at w "Cache.store" = Some LLONG_MAX ->
  exists e,
    call Cache_store a_cache args kw w =
      (Raise e,
       put "Cache.store:inputs"
         (Entry (RList (li ++ [str_tuple args])) (exp_of w "Cache.store:inputs"))
         w).
Proof.
  intros Hk Hs Hli Hc. unfold Cache_store.
  rewrite (call_history_run _ args kw w li Hk Hs) by exact Hli.
  cbv zeta. cbn [__qualname__ count_calls store]. store_keys.
  destruct (count_calls_stuck store args kw
              (put "Cache.store:inputs"
                 (Entry (RList (li ++ [str_tuple args]))
                    (exp_of w "Cache.store:inputs")) w) Hk) as [e He].
  { cbn [__qualname__ store]. now rewrite counter_at_put_ne by discriminate. }
  exists e. now rewrite He.
Qed.

(** A call that the wrapper cannot bind, or whose arguments have no
    display string, raises before anything is written. *)
Lemma Cache_store_refused args kw w :
  bind_invoker kw <> Ok tt \/ forallb showable args = false ->
  exists e, call Cache_store a_cache args kw w = (Raise e, w).
Proof. intros H. unfold Cache_store. now apply call_history_refused. Qed.

Lemma reached_or_refused args kw :
  (bind_invoker kw = Ok tt /\ forallb showable args = true)
  \/ (bind_invoker kw <> Ok tt \/ forallb showable args = false).
Proof.
  destruct (bind_invoker kw) as [[]|e]; [|right; left; discriminate].
  destruct (forallb showable args); auto.
Qed.

(** A call on an object that holds no client writes nothing. *)
Lemma Cache_store_no_client self args kw w :
  _redis self <> Some Redis ->
  db (snd (call Cache_store self args kw w)) = db w.
Proof.
  intros H. destruct self as [[[|v]|]]; [now elim H| |].
  - unfold Cache_store. cbn [call call_history count_calls store __qualname__].
    unfold bind, getattr_redis, lift.
    destruct (bind_invoker kw) as [[]|e]; [|reflexivity]. cbn.
    destruct (bind_data args kw); reflexivity.
  - unfold Cache_store. cbn [call call_history count_calls store __qualname__].
    unfold bind, getattr_redis, lift.
    destruct (bind_invoker kw) as [[]|e]; reflexivity.
Qed.

Lemma db_draw w : db (draw w) = db w.
Proof. reflexivity. Qed.

Lemma snoc_neq {A : Type} (l : list A) (x : A) : l <> (l ++ [x])%list.
Proof.
  intros E. apply (f_equal (@length A)) in E.
  rewrite length_app in E. simpl in E. lia.
Qed.

(** ** The claims on [exercise.py] *)

(** C7: constructing a [Cache] flushes the database it is connected to:
    whatever the database held, it is empty right after [Cache()], and
    the constructor returns the instance. *)
Theorem Cache_init_flushes (w : world) :
  fst (Cache_init w) = Ok a_cache
  /\ db (snd (Cache_init w)) = ∅
  /\ forall k, lookup_key (snd (Cache_init w)) k = None.
Proof. repeat split. Qed.

(** C5: [Cache.get] with no decoder, on a key under which the database
    holds nothing (never written, or expired), returns [None], raises
    nothing and changes nothing. *)
Theorem Cache_get_absent (w : world) (key : string) :
  lookup_key w key = None ->
  Cache_get a_cache key None w = (Ok PNone, w).
Proof.
  intros H. unfold Cache_get.
  erewrite bind_ok by reflexivity.
  erewrite bind_ok by (apply redis_get_absent; exact H).
  reflexivity.
Qed.

(** C9: a call of the decorated [Cache.store], whatever the object, the
    arguments and the state, and whether it returns or raises, leaves the
    entry of every key alone but for the key it generates, the counter
    ["Cache.store"] and the two history keys. *)
Theorem Cache_store_frame (self : object) args kw (w : world) (k : string) :
  k <> next_key w ->
  k <> "Cache.store" ->
  k <> "Cache.store:inputs" ->
  k <> "Cache.store:outputs" ->
  db (snd (call Cache_store self args kw w)) !! k = db w !! k.
Proof.
  intros K1 K2 K3 K4.
  destruct self as [[[|v]|]];
    [| now rewrite Cache_store_no_client by (simpl; discriminate) ..].
  fold a_cache.
  destruct (reached_or_refused args kw) as [[Hk Hs]|Hno];
    [| now destruct (Cache_store_refused args kw w Hno) as [e ->]].
  destruct (list_at w "Cache.store:inputs") as [li|] eqn:Hli;
    [| unfold Cache_store;
       now rewrite (call_history_stuck (count_calls store) args kw w Hk Hs Hli)].
  destruct (counter_at w "Cache.store") as [n|] eqn:Hc.
  - destruct (decide (n = LLONG_MAX)) as [->|Hn].
    + destruct (Cache_store_uncounted args kw w li Hk Hs Hli (or_intror Hc))
        as [e ->].
      cbn [snd]. now rewrite db_put_ne by congruence.
    + rewrite (Cache_store_run args kw w li n Hk Hs Hli Hc Hn).
      destruct (bind_data args kw) as [data|e];
        [destruct (encode data) as [b|e];
         [destruct (list_at w "Cache.store:outputs")|]|];
        cbv zeta; unfold entered; cbn [snd];
        repeat first [rewrite db_put_ne by congruence | rewrite db_draw];
        reflexivity.
  - destruct (Cache_store_uncounted args kw w li Hk Hs Hli (or_introl Hc))
      as [e ->].
    cbn [snd]. now rewrite db_put_ne by congruence.
Qed.

(** A call that returns found the instrumentation in order and data it
    could bind and encode. *)
Lemma Cache_store_returns args kw w r w' :
  call Cache_store a_cache args kw w = (Ok r, w') ->
  exists data b li n lo,
    bind_data args kw = Ok data /\ encode data = Ok b
    /\ list_at w "Cache.store:inputs" = Some li
    /\ counter_at w "Cache.store" = Some n /\ n <> LLONG_MAX
    /\ list_at w "Cache.store:outputs" = Some lo.
Proof.
  intros H.
  destruct (reached_or_refused args kw) as [[Hk Hs]|Hno].
  2:{ destruct (Cache_store_refused args kw w Hno) as [e He].
      rewrite He in H. discriminate H. }
  destruct (list_at w "Cache.store:inputs") as [li|] eqn:Hli.
  2:{ unfold Cache_store in H.
      rewrite (call_history_stuck (count_calls store) args kw w Hk Hs Hli) in H.
      discriminate H. }
  destruct (counter_at w "Cache.store") as [n|] eqn:Hc.
  2:{ destruct (Cache_store_uncounted args kw w li Hk Hs Hli (or_introl Hc))
        as [e He].
      rewrite He in H. discriminate H. }
  destruct (Z.eq_dec n LLONG_MAX) as [->|Hn].
  { destruct (Cache_store_uncounted args kw w li Hk Hs Hli (or_intror Hc))
      as [e He].
    rewrite He in H. discriminate H. }
  rewrite (Cache_store_run args kw w li n Hk Hs Hli Hc Hn) in H.
  destruct (bind_data args kw) as [data|e]; [|discriminate H].
  destruct (encode data) as [b|e] eqn:He; [|discriminate H].
  destruct (list_at w "Cache.store:outputs") as [lo|]; [|discriminate H].
  exists data, b, li, n, lo. auto 10.
Qed.

(** C4 (amended): in a call that gets as far as the body of [store] (the
    wrappers could bind it and display its arguments, and found a
    sequence under ":inputs" and a counter that can still count), when
    the body raises (its argument cannot be bound or encoded) the
    exception reaches the caller, the counter is one higher, the
    arguments are recorded, and nothing was written under ":outputs":
    the inputs have gained exactly one entry on the outputs, and are
    exactly one longer if the two sequences had the same length
    before. *)
Theorem store_raise_recorded args kw (w : world) (li : list string) (n : Z) (e : exn) :
  bind_invoker kw = Ok tt ->
  forallb showable args = true ->
  list_at w "Cache.store:inputs" = Some li ->
  counter_at w "Cache.store" = Some n ->
  n <> LLONG_MAX ->
  fst (call store a_cache args kw (entered w args li n)) = Raise e ->
  let w' := snd (call Cache_store a_cache args kw w) in
  fst (call Cache_store a_cache args kw w) = Raise e
  /\ counter_at w' "Cache.store" = Some (n + 1)
  /\ list_at w' "Cache.store:inputs" = Some (li ++ [str_tuple args])%list
  /\ db w' !! "Cache.store:outputs" = db w !! "Cache.store:outputs"
  /\ forall lo, list_at w "Cache.store:outputs" = Some lo ->
       list_at w' "Cache.store:outputs" = Some lo
       /\ Z.of_nat (length (li ++ [str_tuple args])%list) - Z.of_nat (length lo)
          = Z.of_nat (length li) - Z.of_nat (length lo) + 1
       /\ (length li = length lo ->
           length (li ++ [str_tuple args])%list = S (length lo)).
Proof.
  intros Hk Hs Hli Hc Hn Hbody. cbv zeta.
  pose proof (counter_at_range _ _ _ Hc) as Hr.
  assert (Hn' : LLONG_MIN <= n < LLONG_MAX) by lia.
  destruct (entered_views w args li n Hn') as (Vi & Vc & Vf).
  assert (Vo : list_at (entered w args li n) "Cache.store:outputs"
               = list_at w "Cache.store:outputs").
  { unfold entered. now rewrite !list_at_put_ne by discriminate. }
  assert (Hlen : forall lo : list string,
            Z.of_nat (length (li ++ [str_tuple args])%list) - Z.of_nat (length lo)
            = Z.of_nat (length li) - Z.of_nat (length lo) + 1
            /\ (length li = length lo ->
                length (li ++ [str_tuple args])%list = S (length lo))).
  { intros lo. rewrite length_app. simpl. lia. }
  rewrite (Cache_store_run args kw w li n Hk Hs Hli Hc Hn).
  rewrite store_run in Hbody.
  destruct (bind_data args kw) as [data|e0].
  - destruct (encode data) as [b|e0]; [discriminate Hbody|].
    simpl in Hbody. injection Hbody as ->. cbn [fst snd].
    change (counter_at (draw ?x) ?k) with (counter_at x k).
    split; [reflexivity|]. split; [exact Vc|]. split; [exact Vi|].
    split; [rewrite db_draw; now apply Vf|].
    intros lo Hlo. split; [|now apply Hlen].
    change (list_at (entered w args li n) "Cache.store:outputs" = Some lo).
    now rewrite Vo.
  - simpl in Hbody. injection Hbody as ->. cbn [fst snd].
    split; [reflexivity|]. split; [exact Vc|]. split; [exact Vi|].
    split; [now apply Vf|].
    intros lo Hlo. split; [|now apply Hlen]. now rewrite Vo.
Qed.

(** The counter and the two sequences move together along a run. *)
Lemma run_calls_inv calls : forall w li lo n keys w',
  list_at w "Cache.store:inputs" = Some li ->
  counter_at w "Cache.store" = Some n ->
  list_at w "Cache.store:outputs" = Some lo ->
  run_calls a_cache calls w = (Ok keys, w') ->
  exists li' lo',
    list_at w' "Cache.store:inputs" = Some li'
    /\ list_at w' "Cache.store:outputs" = Some lo'
    /\ counter_at w' "Cache.store" = Some (n + Z.of_nat (length calls))
    /\ length li' = (length li + length calls)%nat
    /\ length lo' = (length lo + length calls)%nat
    /\ length keys = length calls.
Proof.
  induction calls as [|[args kw] rest IH]; intros w li lo n keys w' Hli Hc Hlo Hrun.
  - simpl in Hrun. injection Hrun as <- <-.
    exists li, lo. simpl. rewrite Z.add_0_r, !Nat.add_0_r. repeat split; auto.
  - cbn [run_calls] in Hrun. unfold bind at 1 in Hrun.
    destruct (call Cache_store a_cache args kw w) as [[key|e] w1] eqn:Hcall;
      [|discriminate Hrun].
    destruct (Cache_store_returns _ _ _ _ _ Hcall)
      as (data & b & li0 & n0 & lo0 & Hd & He & Hli0 & Hc0 & Hn0 & Hlo0).
    rewrite Hli in Hli0. rewrite Hc in Hc0. rewrite Hlo in Hlo0.
    injection Hli0 as <-. injection Hc0 as <-. injection Hlo0 as <-.
    destruct (Cache_store_ok args kw w data b li lo n Hd He Hli Hc Hn0 Hlo)
      as (w1' & Hcall' & Vi & Vc & Vo & _).
    rewrite Hcall in Hcall'. injection Hcall' as _ <-.
    unfold bind at 1 in Hrun.
    destruct (run_calls a_cache rest w1) as [[keys1|e] w2] eqn:Hrest;
      [|discriminate Hrun].
    injection Hrun as <- <-.
    destruct (IH w1 _ _ _ keys1 w2 Vi Vc Vo Hrest)
      as (li' & lo' & Wi & Wo & Wc & Li & Lo & Lk).
    exists li', lo'. rewrite !length_app in Li, Lo. simpl in Li, Lo.
    simpl length. rewrite Nat2Z.inj_succ.
    replace (n + Z.succ (Z.of_nat (length rest)))
      with (n + 1 + Z.of_nat (length rest)) by lia.
    repeat split; auto; lia.
Qed.

(** C2: from a state with no counter and no history for [Cache.store]
    (as [Cache()] leaves it), N calls of [cache.store] none of which
    raises leave the counter at N (no key at all when N is 0) and N
    entries in each of the two sequences. *)
Theorem store_counts_calls (calls : list (list pyval * kwargs)) (w : world)
    (keys : list pyval) (w' : world) :
  lookup_key w "Cache.store" = None ->
  lookup_key w "Cache.store:inputs" = None ->
  lookup_key w "Cache.store:outputs" = None ->
  run_calls a_cache calls w = (Ok keys, w') ->
  counter_at w' "Cache.store" = Some (Z.of_nat (length calls))
  /\ exists li lo,
       list_at w' "Cache.store:inputs" = Some li
       /\ list_at w' "Cache.store:outputs" = Some lo
       /\ length li = length calls
       /\ length lo = length calls.
Proof.
  intros Hc Hi Ho Hrun.
  destruct (run_calls_inv calls w [] [] 0 keys w') as
      (li & lo & Vi & Vo & Vc & Li & Lo & _); auto.
  - unfold list_at. now rewrite Hi.
  - unfold counter_at. now rewrite Hc.
  - unfold list_at. now rewrite Ho.
  - split; [exact Vc|]. exists li, lo. simpl in Li, Lo. auto.
Qed.

(** C1 (amended): a value of a supported type that [cache.store] has
    stored is under the returned key in its encoded form, and
    [cache.get] with no decoder gives back those bytes: the value itself
    when it is binary, its UTF-8 bytes when it is text, the digits of its
    [repr] when it is a number. *)
Theorem store_then_get args kw (v : pyval) (w : world) (key : string) (w' : world) :
  supported v = true ->
  bind_data args kw = Ok v ->
  call Cache_store a_cache args kw w = (Ok (PStr key), w') ->
  exists b,
    lookup_key w' key = Some (Entry (RString b) None)
    /\ Cache_get a_cache key None w' = (Ok (PBytes b), w')
    /\ match v with
       | PBytes bs => PBytes b = v
       | PStr s => b = s
       | PInt z => b = int_repr z
       | PFloat bits => b = float_repr py bits
       | PNone | PBool _ | PStrLone _ => False
       end.
Proof.
  intros Hs Hv Hcall.
  destruct (Cache_store_returns _ _ _ _ _ Hcall)
    as (data & b & li & n & lo & Hd & He & Hli & Hc & Hn & Hlo).
  destruct (Cache_store_ok args kw w data b li lo n Hd He Hli Hc Hn Hlo)
    as (w1 & Hcall' & _ & _ & _ & Vk & _).
  rewrite Hcall in Hcall'. injection Hcall' as -> <-.
  rewrite Hv in Hd. injection Hd as <-.
  exists b. split; [exact Vk|]. split.
  - unfold Cache_get.
    erewrite bind_ok by reflexivity.
    erewrite bind_ok by (eapply redis_get_string; [exact Vk | reflexivity]).
    reflexivity.
  - destruct v as [|x|z|bits|s|s|bs]; simpl in Hs, He; try discriminate Hs;
      try discriminate He; try congruence.
    unfold repr_int in He.
    destruct (digit_count z <=? MAX_STR_DIGITS); congruence.
Qed.


(** C8 (amended): handed [None], something with no [__self__], or a
    method bound to an object that holds no [redis.Redis] under
    [_redis], [replay] returns at once: nothing printed, nothing raised,
    nothing read or written. *)
Theorem replay_no_client (fn : callable) (w : world) :
  no_client fn = true -> replay fn w = (Ok tt, w).
Proof.
  destruct fn as [| q | [[[|v]|]] q]; simpl; intros H;
    try discriminate H; reflexivity.
Qed.

(** ** The claims on [web.py] *)

Lemma count_result_distinct (url : string) : "count:" +:+ url <> "result:" +:+ url.
Proof. simpl. discriminate. Qed.

(** X16: a hit on a cached page that is not empty: the bytes come back
    as text, no request is sent, the counter alone changes. *)
Lemma get_page_hit (url : string) (w : world) n e b :
  counter_at w ("count:" +:+ url) = Some n -> n <> LLONG_MAX ->
  lookup_key w ("result:" +:+ url) = Some e -> e_val e = RString b ->
  b <> "" -> utf8_valid b = true ->
  get_page url w =
    (Ok (PStr b),
     put ("count:" +:+ url)
       (Entry (RString (int_repr (n + 1))) (exp_of w ("count:" +:+ url))) w).
Proof.
  intros Hc Hn He Hv Hb Hu. unfold get_page, cache_response.
  erewrite bind_ok by (apply redis_incr_ok; eassumption).
  erewrite bind_ok.
  2:{ eapply redis_get_string; [|exact Hv].
      rewrite lookup_key_put_ne by apply count_result_distinct. exact He. }
  unfold truthy. destruct (String.eqb_spec b ""); [contradiction|].
  simpl negb. cbv iota. unfold lift, decode_utf8. now rewrite Hu.
Qed.

(** C3, where the code departs from it: a page whose body is empty is
    cached by the first call and is there, not yet expired, at the
    second call, which sends a second request all the same. *)
Theorem get_page_empty_refetched :
  let url := "http://empty" in
  let w1 := snd (get_page url sample_world) in
  lookup_key w1 ("result:" +:+ url) = Some (Entry (RString "") (Some 10000))
  /\ requests_log w1 = [url]
  /\ fst (get_page url w1) = Ok (PStr "")
  /\ requests_log (snd (get_page url w1)) = [url; url].
Proof. cbv zeta. repeat split; vm_compute; reflexivity. Qed.

(** C6: in a call of [get_page] that sends the request and gets an
    exception for it, that exception is what the caller gets, the entry
    under [result:{url}] is what it was, and the counter under
    [count:{url}] is one higher. *)
Theorem get_page_fetch_raises (url : string) (w : world) (e : exn)
    (r : outcome pyval) (w' : world) :
  web w url = Raise e ->
  get_page url w = (r, w') ->
  requests_log w' = (requests_log w ++ [url])%list ->
  r = Raise e
  /\ db w' !! ("result:" +:+ url) = db w !! ("result:" +:+ url)
  /\ exists n, counter_at w ("count:" +:+ url) = Some n
               /\ counter_at w' ("count:" +:+ url) = Some (n + 1).
Proof.
  intros Hweb Hrun Hlog.
  pose proof (count_result_distinct url) as Hk.
  unfold get_page, cache_response in Hrun.
  destruct (counter_at w ("count:" +:+ url)) as [n|] eqn:Hc.
  2:{ destruct (INCR_raises ("count:" +:+ url) w (or_introl Hc)) as [x Hx].
      erewrite bind_raise in Hrun
        by (unfold redis_incr; erewrite bind_raise by exact Hx; reflexivity).
      injection Hrun as _ <-. now apply snoc_neq in Hlog. }
  destruct (Z.eq_dec n LLONG_MAX) as [->|Hn].
  { destruct (INCR_raises ("count:" +:+ url) w (or_intror Hc)) as [x Hx].
    erewrite bind_raise in Hrun
      by (unfold redis_incr; erewrite bind_raise by exact Hx; reflexivity).
    injection Hrun as _ <-. now apply snoc_neq in Hlog. }
  erewrite bind_ok in Hrun by (apply redis_incr_ok; eassumption).
  set (w1 := put ("count:" +:+ url) _ w) in Hrun.
  assert (Hl : lookup_key w1 ("result:" +:+ url) = lookup_key w ("result:" +:+ url))
    by (unfold w1; now rewrite lookup_key_put_ne).
  assert (Hfetch : requests_get_text url w1 = (Raise e, sent url w1)).
  { unfold requests_get_text. change (web w1 url) with (web w url).
    now rewrite Hweb. }
  assert (Hdone : (r, w') = (Raise e, sent url w1) ->
          r = Raise e
          /\ db w' !! ("result:" +:+ url) = db w !! ("result:" +:+ url)
          /\ exists n0, Some n = Some n0
               /\ counter_at w' ("count:" +:+ url) = Some (n0 + 1)).
  { intros [= -> ->]. split; [reflexivity|]. split.
    - change (db (sent url w1)) with (db w1). unfold w1.
      now rewrite db_put_ne.
    - exists n. split; [reflexivity|].
      change (counter_at (sent url w1) ("count:" +:+ url))
        with (counter_at w1 ("count:" +:+ url)).
      unfold w1. apply counter_at_put_eq; [apply live_exp_of|].
      pose proof (counter_at_range _ _ _ Hc). unfold LLONG_MAX, LLONG_MIN in *. lia. }
  destruct (lookup_key w ("result:" +:+ url)) as [e0|] eqn:Hres.
  - destruct (e_val e0) as [b|l] eqn:Hv.
    + erewrite bind_ok in Hrun
        by (eapply redis_get_string; [rewrite Hl; reflexivity | exact Hv]).
      unfold truthy in Hrun. destruct (String.eqb_spec b "") as [->|Hb].
      * cbn [negb] in Hrun.
        erewrite bind_raise in Hrun by exact Hfetch.
        apply Hdone. now rewrite Hrun.
      * cbn [negb] in Hrun. unfold lift in Hrun.
        injection Hrun as _ <-.
        change (requests_log w1) with (requests_log w) in Hlog.
        now apply snoc_neq in Hlog.
    + erewrite bind_raise in Hrun.
      2:{ unfold redis_get. erewrite bind_raise; [reflexivity|].
          unfold Server.GET. rewrite Hl, Hv. reflexivity. }
      injection Hrun as _ <-.
      change (requests_log w1) with (requests_log w) in Hlog.
      now apply snoc_neq in Hlog.
  - erewrite bind_ok in Hrun by (apply redis_get_absent; now rewrite Hl).
    unfold truthy in Hrun. cbv iota in Hrun.
    erewrite bind_raise in Hrun by exact Hfetch.
    apply Hdone. now rewrite Hrun.
Qed.

(** ** Reading a number back *)

Lemma digit_plain (a : ascii) :
  is_digit a = true ->
  is_space a = false /\ a <> "-"%char /\ a <> "+"%char /\ a <> "_"%char.
Proof.
  destruct a as [[] [] [] [] [] [] [] []]; vm_compute; intros H;
    try discriminate H; repeat split; discriminate.
Qed.

Lemma digits_of_uint (d : Decimal.uint) :
  digits_only (NilEmpty.string_of_uint d) = true.
Proof. induction d; simpl; auto. Qed.

Lemma lstrip_digits (s : string) :
  digits_only s = true -> lstrip s = s.
Proof.
  destruct s as [|a r]; simpl; [reflexivity|].
  intros H. apply andb_prop in H as [Ha _].
  destruct (digit_plain a Ha) as [-> _]. reflexivity.
Qed.

Lemma rstrip_digits (s : string) :
  digits_only s = true -> rstrip s = s.
Proof.
  induction s as [|a r IH]; simpl; [reflexivity|].
  intros H. apply andb_prop in H as [Ha Hr].
  rewrite (IH Hr). destruct (digit_plain a Ha) as [-> _].
  now destruct r.
Qed.

Lemma drop_underscores_digits (s : string) (prev : bool) :
  digits_only s = true -> s <> "" \/ prev = true ->
  drop_underscores prev s = Some s.
Proof.
  revert prev. induction s as [|a r IH]; intros prev H Hne; simpl.
  - destruct Hne as [Hne | ->]; [now elim Hne | reflexivity].
  - simpl in H. apply andb_prop in H as [Ha Hr]. rewrite Ha.
    rewrite (IH true Hr) by now right. reflexivity.
Qed.

Lemma parse_digits_uint (d : Decimal.uint) :
  d <> Decimal.Nil ->
  Z.of_nat (String.length (NilEmpty.string_of_uint d)) <= MAX_STR_DIGITS ->
  parse_digits (NilEmpty.string_of_uint d) = Some (Z.of_uint d).
Proof.
  intros Hd Hlen. unfold parse_digits.
  rewrite drop_underscores_digits.
  - apply Z.ltb_ge in Hlen. rewrite Hlen. now rewrite NilEmpty.usu.
  - apply digits_of_uint.
  - left. now destruct d.
Qed.

Lemma int_of_text_digits (s : string) :
  digits_only s = true ->
  int_of_text s = parse_digits s.
Proof.
  intros H. unfold int_of_text.
  rewrite (lstrip_digits s H), (rstrip_digits s H).
  destruct s as [|a r]; [reflexivity|].
  simpl in H. apply andb_prop in H as [Ha _].
  destruct a as [[] [] [] [] [] [] [] []]; try reflexivity;
    vm_compute in Ha; discriminate Ha.
Qed.

Lemma rstrip_minus (s : string) :
  digits_only s = true -> s <> "" -> rstrip (String "-" s) = String "-" s.
Proof.
  intros H Hne. change (rstrip (String "-" s))
    with (match rstrip s with
          | EmptyString => if is_space "-" then EmptyString else String "-" EmptyString
          | r' => String "-" r'
          end).
  rewrite (rstrip_digits s H). destruct s; [now elim Hne | reflexivity].
Qed.

Lemma string_of_pos (p : positive) :
  NilZero.string_of_uint (Pos.to_uint p) = NilEmpty.string_of_uint (Pos.to_uint p).
Proof.
  pose proof (Unsigned.to_uint_nonnil p).
  unfold NilZero.string_of_uint. now destruct (Pos.to_uint p).
Qed.

(** [int] reads back what [repr], and Redis, write for an integer, as
    long as the digits are no more than it agrees to read. *)
Lemma int_of_text_int_repr (z : Z) :
  digit_count z <= MAX_STR_DIGITS -> int_of_text (int_repr z) = Some z.
Proof.
  unfold digit_count, int_repr. destruct z as [|p|p]; [reflexivity| |].
  - simpl Z.to_int. simpl NilZero.string_of_int.
    pose proof (Unsigned.to_uint_nonnil p) as Hp.
    rewrite string_of_pos. intros Hlen.
    rewrite int_of_text_digits by apply digits_of_uint.
    rewrite parse_digits_uint by assumption.
    unfold Z.of_uint. now rewrite Unsigned.of_to.
  - simpl Z.to_int. simpl NilZero.string_of_int.
    pose proof (Unsigned.to_uint_nonnil p) as Hp.
    rewrite string_of_pos. intros Hlen. unfold int_of_text.
    change (lstrip (String "-" ?s)) with (String "-" s).
    rewrite rstrip_minus;
      [| apply digits_of_uint | now destruct (Pos.to_uint p)].
    rewrite parse_digits_uint by assumption. simpl option_map.
    unfold Z.of_uint. now rewrite Unsigned.of_to.
Qed.

(** The digits of a number are no more than its bits. *)
Lemma length_string_of_uint (d : Decimal.uint) :
  String.length (NilEmpty.string_of_uint d) = Decimal.nb_digits d.
Proof. induction d; simpl; congruence. Qed.

Lemma nb_digits_double (d : Decimal.uint) :
  (Decimal.nb_digits (Decimal.Little.double d) <= S (Decimal.nb_digits d)
   /\ Decimal.nb_digits (Decimal.Little.succ_double d) <= S (Decimal.nb_digits d))%nat.
Proof. induction d; simpl; lia. Qed.

Lemma nb_digits_to_little_uint (p : positive) :
  (Decimal.nb_digits (Pos.to_little_uint p) <= Pos.size_nat p)%nat.
Proof.
  induction p as [p IH|p IH|]; simpl.
  - pose proof (proj2 (nb_digits_double (Pos.to_little_uint p))). lia.
  - pose proof (proj1 (nb_digits_double (Pos.to_little_uint p))). lia.
  - lia.
Qed.

Lemma digit_count_pos (p : positive) :
  digit_count (Z.pos p) <= Z.of_nat (Pos.size_nat p).
Proof.
  unfold digit_count, int_repr. simpl.
  rewrite string_of_pos, length_string_of_uint. unfold Pos.to_uint.
  rewrite nb_digits_rev. apply Nat2Z.inj_le, nb_digits_to_little_uint.
Qed.

(** A signed 64-bit integer is far below the limit on digits. *)
Lemma digit_count_int64 (z : Z) :
  LLONG_MIN <= z <= LLONG_MAX -> digit_count z <= MAX_STR_DIGITS.
Proof.
  unfold LLONG_MIN, LLONG_MAX, MAX_STR_DIGITS. intros H.
  destruct z as [|p|p].
  - vm_compute. discriminate.
  - etransitivity; [apply digit_count_pos|].
    assert (L : (p < 2 ^ 63)%positive) by lia.
    apply Pos.size_nat_monotone in L.
    change (Pos.size_nat (2 ^ 63)) with 64%nat in L. lia.
  - change (digit_count (Z.neg p)) with (digit_count (Z.pos p)).
    etransitivity; [apply digit_count_pos|].
    assert (L : (p < 2 ^ 63 + 1)%positive) by lia.
    apply Pos.size_nat_monotone in L.
    change (Pos.size_nat (2 ^ 63 + 1)) with 64%nat in L. lia.
Qed.

Lemma repr_int_int64 (z : Z) :
  LLONG_MIN <= z <= LLONG_MAX -> repr_int z = Ok (int_repr z).
Proof.
  intros H. unfold repr_int.
  apply digit_count_int64, Z.leb_le in H. now rewrite H.
Qed.

Lemma repr_int_ok (z : Z) (b : string) :
  repr_int z = Ok b -> b = int_repr z /\ digit_count z <= MAX_STR_DIGITS.
Proof.
  unfold repr_int. destruct (digit_count z <=? MAX_STR_DIGITS) eqn:E;
    [|discriminate].
  intros [= <-]. split; [reflexivity | now apply Z.leb_le].
Qed.

(** ** More on [Cache.get] and its two decoders *)

Lemma stored_readable args kw w key w' :
  call Cache_store a_cache args kw w = (Ok (PStr key), w') ->
  exists data b,
    bind_data args kw = Ok data /\ encode data = Ok b
    /\ key = next_key w
    /\ lookup_key w' key = Some (Entry (RString b) None).
Proof.
  intros Hcall.
  destruct (Cache_store_returns _ _ _ _ _ Hcall)
    as (data & b & li & n & lo & Hd & He & Hli & Hc & Hn & Hlo).
  destruct (Cache_store_ok args kw w data b li lo n Hd He Hli Hc Hn Hlo)
    as (w1 & Hcall' & _ & _ & _ & Vk & _).
  rewrite Hcall in Hcall'. injection Hcall' as -> <-.
  exists data, b. auto.
Qed.

Lemma Cache_get_decoded key w e b (f : pyval -> M pyval) :
  lookup_key w key = Some e -> e_val e = RString b ->
  Cache_get a_cache key (Some f) w = f (PBytes b) w.
Proof.
  intros H Hv. unfold Cache_get.
  erewrite bind_ok by reflexivity.
  erewrite bind_ok by (eapply redis_get_string; eassumption).
  reflexivity.
Qed.

(** X1: text that [cache.store] has stored comes back from
    [cache.get_str] as the same text. *)
Theorem store_then_get_str args kw (s : string) (w : world) (key : string)
    (w' : world) :
  bind_data args kw = Ok (PStr s) ->
  utf8_valid s = true ->
  call Cache_store a_cache args kw w = (Ok (PStr key), w') ->
  Cache_get_str a_cache key w' = (Ok (PStr s), w').
Proof.
  intros Hv Hu Hcall.
  destruct (stored_readable _ _ _ _ _ Hcall) as (data & b & Hd & He & _ & Vk).
  rewrite Hv in Hd. injection Hd as <-. simpl in He. injection He as <-.
  unfold Cache_get_str.
  rewrite (Cache_get_decoded key w' _ s _ Vk eq_refl).
  unfold lift, decode_utf8. now rewrite Hu.
Qed.

(** X2: an integer that [cache.store] has stored comes back from
    [cache.get_int] as the same integer, whatever its sign and size. *)
Theorem store_then_get_int args kw (z : Z) (w : world) (key : string)
    (w' : world) :
  bind_data args kw = Ok (PInt z) ->
  call Cache_store a_cache args kw w = (Ok (PStr key), w') ->
  Cache_get_int a_cache key w' = (Ok (PInt z), w').
Proof.
  intros Hv Hcall.
  destruct (stored_readable _ _ _ _ _ Hcall) as (data & b & Hd & He & _ & Vk).
  rewrite Hv in Hd. injection Hd as <-.
  apply repr_int_ok in He as [-> Hz].
  unfold Cache_get_int.
  rewrite (Cache_get_decoded key w' _ (int_repr z) _ Vk eq_refl).
  unfold bind, lift, py_int. now rewrite int_of_text_int_repr.
Qed.

(** X3: on a key under which there is nothing, the two decoders are
    handed [None] and fail on it: [get_str] raises AttributeError and
    [get_int] raises TypeError, where plain [get] returns [None]; the
    store is left as it was. *)
Theorem decoders_on_absent_key (w : world) (key : string) :
  lookup_key w key = None ->
  Cache_get_str a_cache key w = (Raise AttributeError, w)
  /\ Cache_get_int a_cache key w = (Raise TypeError, w).
Proof.
  intros H. unfold Cache_get_str, Cache_get_int, Cache_get.
  split.
  - erewrite bind_ok by reflexivity.
    erewrite bind_ok by (apply redis_get_absent; exact H). reflexivity.
  - erewrite bind_ok by reflexivity.
    erewrite bind_ok by (apply redis_get_absent; exact H). reflexivity.
Qed.

Lemma list_at_nonempty w k l x :
  list_at w k = Some (l ++ [x])%list ->
  exists e, lookup_key w k = Some e /\ e_val e = RList (l ++ [x]).
Proof.
  unfold list_at. destruct (lookup_key w k) as [e|].
  - destruct (e_val e) eqn:Hv; [discriminate|]. intros [= ->]. eauto.
  - intros [= H]. now destruct l.
Qed.

Lemma redis_get_list k w e l :
  lookup_key w k = Some e -> e_val e = RList l ->
  redis_get k w = (Raise Server.WRONGTYPE, w).
Proof.
  intros H Hv. unfold redis_get, Server.GET, bind. now rewrite H, Hv.
Qed.

(** X4: the keys of the instrumentation live beside the stored values:
    after a call of [cache.store] that returned, [cache.get] on either
    history key raises the server's WRONGTYPE error instead of returning
    [None] or bytes. *)
Theorem get_on_history_key args kw (w : world) (r : pyval) (w' : world) :
  call Cache_store a_cache args kw w = (Ok r, w') ->
  Cache_get a_cache "Cache.store:inputs" None w' = (Raise Server.WRONGTYPE, w')
  /\ Cache_get a_cache "Cache.store:outputs" None w' = (Raise Server.WRONGTYPE, w').
Proof.
  intros Hcall.
  destruct (Cache_store_returns _ _ _ _ _ Hcall)
    as (data & b & li & n & lo & Hd & He & Hli & Hc & Hn & Hlo).
  destruct (Cache_store_ok args kw w data b li lo n Hd He Hli Hc Hn Hlo)
    as (w1 & Hcall' & Vi & _ & Vo & _).
  rewrite Hcall in Hcall'. injection Hcall' as _ <-.
  apply list_at_nonempty in Vi as (ei & Hi & Hvi).
  apply list_at_nonempty in Vo as (eo & Ho & Hvo).
  unfold Cache_get. split.
  - erewrite bind_ok by reflexivity.
    erewrite bind_raise by (eapply redis_get_list; eassumption). reflexivity.
  - erewrite bind_ok by reflexivity.
    erewrite bind_raise by (eapply redis_get_list; eassumption). reflexivity.
Qed.

(** ** More on the decorated [Cache.store] *)

Lemma encode_storable (v : pyval) :
  storable v = true -> exists b, encode v = Ok b.
Proof.
  destruct v; simpl; intros H; try discriminate H; eauto.
  unfold repr_int. rewrite H. eauto.
Qed.

(** X5: on a state where the instrumentation is in order (a sequence
    under each history key, a counter below the largest 64-bit integer),
    [cache.store] of a value that can be written down (text with no lone
    surrogate, binary data, a double, an integer of no more than 4300
    digits) never raises: it returns a key of 36 characters, with the
    counter one higher and one more entry in each sequence. *)
Theorem store_succeeds args kw (v : pyval) (w : world) (li lo : list string) (n : Z) :
  storable v = true ->
  bind_data args kw = Ok v ->
  list_at w "Cache.store:inputs" = Some li ->
  counter_at w "Cache.store" = Some n ->
  n <> LLONG_MAX ->
  list_at w "Cache.store:outputs" = Some lo ->
  exists w',
    call Cache_store a_cache args kw w = (Ok (PStr (next_key w)), w')
    /\ String.length (next_key w) = 36%nat
    /\ counter_at w' "Cache.store" = Some (n + 1)
    /\ list_at w' "Cache.store:inputs" = Some (li ++ [str_tuple args])%list
    /\ list_at w' "Cache.store:outputs" = Some (lo ++ [next_key w])%list.
Proof.
  intros Hs Hd Hli Hc Hn Hlo.
  destruct (encode_storable v Hs) as [b He].
  destruct (Cache_store_ok args kw w v b li lo n Hd He Hli Hc Hn Hlo)
    as (w' & Hcall & Vi & Vc & Vo & _).
  exists w'. split; [exact Hcall|]. split; [apply length_uuid_str|]. auto.
Qed.

Lemma run_calls_total calls : forall w li lo n,
  list_at w "Cache.store:inputs" = Some li ->
  counter_at w "Cache.store" = Some n ->
  list_at w "Cache.store:outputs" = Some lo ->
  Forall (fun c => exists v, bind_data (fst c) (snd c) = Ok v
                             /\ storable v = true) calls ->
  n + Z.of_nat (length calls) <= LLONG_MAX ->
  exists keys w',
    run_calls a_cache calls w = (Ok keys, w') /\ length keys = length calls.
Proof.
  induction calls as [|[args kw] rest IH]; intros w li lo n Hli Hc Hlo Hall Hn.
  - exists [], w. split; reflexivity.
  - apply Forall_cons in Hall as [(v & Hd & Hs) Hall]. simpl in Hd.
    simpl length in Hn. rewrite Nat2Z.inj_succ in Hn.
    destruct (encode_storable v Hs) as [b He].
    assert (Hn' : n <> LLONG_MAX) by lia.
    destruct (Cache_store_ok args kw w v b li lo n Hd He Hli Hc Hn' Hlo)
      as (w1 & Hcall & Vi & Vc & Vo & _).
    destruct (IH w1 _ _ _ Vi Vc Vo Hall) as (keys & w' & Hrun & Hlen); [lia|].
    exists (PStr (next_key w) :: keys), w'. split.
    + cbn [run_calls]. erewrite bind_ok by exact Hcall.
      erewrite bind_ok by exact Hrun. reflexivity.
    + simpl. now rewrite Hlen.
Qed.

(** X6: from a state with no counter and no history (as [Cache()] leaves
    it), any run of calls of [cache.store] that each pass one value that
    can be written down (text with no lone surrogate, binary data, a
    double, an integer of no more than 4300 digits) completes without
    raising and returns one key per call, as long as the number of calls
    fits the 64-bit counter. *)
Theorem run_of_supported_calls (calls : list (list pyval * kwargs)) (w : world) :
  lookup_key w "Cache.store" = None ->
  lookup_key w "Cache.store:inputs" = None ->
  lookup_key w "Cache.store:outputs" = None ->
  Forall (fun c => exists v, bind_data (fst c) (snd c) = Ok v
                             /\ storable v = true) calls ->
  Z.of_nat (length calls) <= LLONG_MAX ->
  exists keys w',
    run_calls a_cache calls w = (Ok keys, w') /\ length keys = length calls.
Proof.
  intros Hc Hi Ho Hall Hn.
  apply (run_calls_total calls w [] [] 0); auto.
  - unfold list_at. now rewrite Hi.
  - unfold counter_at. now rewrite Hc.
  - unfold list_at. now rewrite Ho.
Qed.

(** X7: when the key ":inputs" holds a string instead of a sequence, a
    call of [cache.store] that binds (no keyword is named [self]) and
    whose positional arguments have a display string raises the server's
    WRONGTYPE error at its first write: nothing is recorded, counted or
    stored. *)
Theorem store_blocked_by_inputs args kw (w : world) :
  bind_invoker kw = Ok tt ->
  forallb showable args = true ->
  list_at w "Cache.store:inputs" = None ->
  call Cache_store a_cache args kw w = (Raise Server.WRONGTYPE, w).
Proof.
  intros Hk Hs H. unfold Cache_store.
  now rewrite (call_history_stuck (count_calls store) args kw w Hk Hs H).
Qed.



(** X10: on an object whose [_redis] holds a plain value ([None], a
    number, text) instead of a [redis.Redis], the two decorators of
    [Cache.store] do nothing at all: the decorated method ends as the
    plain one does, with an exception (TypeError when the call does not
    bind, AttributeError at [self._redis.set]) and nothing written to
    the database. *)
Theorem decorators_without_client (self : object) (v : pyval) args kw (w : world) :
  _redis self = Some (NotRedis v) ->
  call Cache_store self args kw w = call store self args kw w
  /\ (fst (call Cache_store self args kw w) = Raise TypeError
      \/ fst (call Cache_store self args kw w) = Raise AttributeError)
  /\ db (snd (call Cache_store self args kw w)) = db w.
Proof.
  intros Hs.
  assert (E : call Cache_store self args kw w = call store self args kw w).
  { unfold Cache_store. cbn [call call_history count_calls __qualname__ store].
    unfold getattr_redis, client, getattr_redis. rewrite Hs.
    unfold bind, ret, lift, raise, bind_invoker. cbn [is_Redis].
    destruct (existsb _ kw) eqn:Hk.
    - destruct args as [|a [|a' args]], kw as [|[name x] [|p kw]];
        simpl in Hk |- *; try reflexivity; try discriminate Hk.
      rewrite orb_false_r in Hk.
      destruct (String.eqb_spec name "self") as [->|]; [|discriminate Hk].
      reflexivity.
    - destruct (bind_data args kw); reflexivity. }
  rewrite E. cbn [call store].
  unfold client, getattr_redis. rewrite Hs.
  unfold bind, ret, lift, raise, uuid4. cbn [is_Redis].
  destruct (bind_data args kw) as [data|e] eqn:Hd; cbn [fst snd].
  - split; [reflexivity|]. split; [now right | reflexivity].
  - split; [reflexivity|]. split; [|reflexivity]. left.
    unfold bind_data in Hd.
    destruct args as [|a [|a' args]], kw as [|[name x] [|p kw]];
      try (injection Hd as <-; reflexivity); try discriminate Hd.
    destruct (String.eqb name "data"); [discriminate Hd|].
    now injection Hd as <-.
Qed.

Lemma lookup_key_draw w k : lookup_key (draw w) k = lookup_key w k.
Proof. reflexivity. Qed.

(** A call leaves what the server sees under every other key alone. *)
Lemma Cache_store_keeps args kw (w : world) (k : string) :
  k <> next_key w -> k <> "Cache.store" ->
  k <> "Cache.store:inputs" -> k <> "Cache.store:outputs" ->
  lookup_key (snd (call Cache_store a_cache args kw w)) k = lookup_key w k.
Proof.
  intros K1 K2 K3 K4.
  destruct (reached_or_refused args kw) as [[Hk Hs]|Hno];
    [| now destruct (Cache_store_refused args kw w Hno) as [e ->]].
  destruct (list_at w "Cache.store:inputs") as [li|] eqn:Hli;
    [| unfold Cache_store;
       now rewrite (call_history_stuck (count_calls store) args kw w Hk Hs Hli)].
  destruct (counter_at w "Cache.store") as [n|] eqn:Hc.
  - destruct (Z.eq_dec n LLONG_MAX) as [->|Hn].
    + destruct (Cache_store_uncounted args kw w li Hk Hs Hli (or_intror Hc))
        as [e ->].
      cbn [snd]. now rewrite lookup_key_put_ne by congruence.
    + rewrite (Cache_store_run args kw w li n Hk Hs Hli Hc Hn).
      destruct (bind_data args kw) as [data|e];
        [destruct (encode data) as [b|e];
         [destruct (list_at w "Cache.store:outputs")|]|];
        cbv zeta; unfold entered; cbn [snd];
        repeat first [rewrite lookup_key_put_ne by congruence
                     | rewrite lookup_key_draw];
        reflexivity.
  - destruct (Cache_store_uncounted args kw w li Hk Hs Hli (or_introl Hc))
      as [e ->].
    cbn [snd]. now rewrite lookup_key_put_ne by congruence.
Qed.

Lemma Cache_get_plain key w e b :
  lookup_key w key = Some e -> e_val e = RString b ->
  Cache_get a_cache key None w = (Ok (PBytes b), w).
Proof.
  intros H Hv. unfold Cache_get.
  erewrite bind_ok by reflexivity.
  erewrite bind_ok by (eapply redis_get_string; eassumption).
  reflexivity.
Qed.

(** X11: a value that [cache.store] has stored stays readable under its
    key across a later call of [cache.store], whatever that call is
    given and whether it returns or raises, unless the later call draws
    the very same key. *)
Theorem stored_value_stays args kw (w : world) (key : string) (w1 : world)
    args' kw' :
  call Cache_store a_cache args kw w = (Ok (PStr key), w1) ->
  key <> next_key w1 ->
  exists b,
    fst (Cache_get a_cache key None w1) = Ok (PBytes b)
    /\ fst (Cache_get a_cache key None
              (snd (call Cache_store a_cache args' kw' w1))) = Ok (PBytes b).
Proof.
  intros Hcall Hk.
  destruct (stored_readable _ _ _ _ _ Hcall) as (data & b & _ & _ & -> & Vk).
  destruct (uuid_str_fresh (uuid4_int (entropy w (drawn w) mod 2 ^ 128)))
    as (Fc & Fi & Fo). fold (next_key w) in Fc, Fi, Fo.
  exists b. split.
  - now rewrite (Cache_get_plain _ _ _ b Vk eq_refl).
  - rewrite (Cache_get_plain _ _ (Entry (RString b) None) b);
      [reflexivity | | reflexivity].
    rewrite Cache_store_keeps by assumption. exact Vk.
Qed.

(** ** More on [replay] *)

Lemma emits_app (l1 l2 : list string) (w : world) :
  emits l2 (emits l1 w) = emits (l1 ++ l2) w.
Proof. revert w. induction l1 as [|x l1 IH]; intros w; simpl; auto. Qed.

Lemma db_emits (lines : list string) (w : world) : db (emits lines w) = db w.
Proof. revert w. induction lines as [|x l IH]; intros w; simpl; [|rewrite IH]; reflexivity. Qed.

Lemma only_prints_ret {A : Type} (a : A) : only_prints (ret a).
Proof. intros w. now exists []. Qed.

Lemma only_prints_lift {A : Type} (o : outcome A) : only_prints (lift o).
Proof. intros w. now exists []. Qed.

Lemma only_prints_print (line : string) : only_prints (print line).
Proof. intros w. now exists [line]. Qed.

Lemma only_prints_bind {A B : Type} (m : M A) (k : A -> M B) :
  only_prints m -> (forall a, only_prints (k a)) -> only_prints (bind m k).
Proof.
  intros Hm Hk w. unfold bind. destruct (Hm w) as [l1 H1].
  destruct (m w) as [[a|e] w1]; simpl in H1; subst w1.
  - destruct (Hk a (emits l1 w)) as [l2 H2].
    exists (l1 ++ l2)%list. now rewrite H2, emits_app.
  - now exists l1.
Qed.

Lemma only_prints_server {A : Type} (m : M A) :
  (forall w, snd (m w) = w) -> only_prints m.
Proof. intros H w. exists []. apply H. Qed.

Lemma GET_reads k w : snd (Server.GET k w) = w.
Proof.
  unfold Server.GET. destruct (lookup_key w k) as [e|]; [|reflexivity].
  now destruct (e_val e).
Qed.

Lemma LRANGE_reads k a b w : snd (Server.LRANGE k a b w) = w.
Proof.
  unfold Server.LRANGE. destruct (lookup_key w k) as [e|]; [|reflexivity].
  now destruct (e_val e).
Qed.

Lemma only_prints_pairs q ins : forall outs, only_prints (print_pairs q ins outs).
Proof.
  induction ins as [|i ins IH]; intros outs; [apply only_prints_ret|].
  destruct outs as [|o outs]; [apply only_prints_ret|].
  cbn [print_pairs].
  apply only_prints_bind; [apply only_prints_lift|]. intros decoded.
  apply only_prints_bind; [apply only_prints_lift|]. intros shown.
  apply only_prints_bind; [apply only_prints_lift|]. intros output.
  apply only_prints_bind; [apply only_prints_print|]. intros _. apply IH.
Qed.

(** X12: [replay] only reads and prints: whatever it is handed and
    whatever the store holds, and also when it raises half-way, the
    world after it is the world before it with some lines printed; the
    database in particular is untouched. *)
Theorem replay_only_prints (fn : callable) (w : world) :
  exists lines,
    snd (replay fn w) = emits lines w
    /\ db (snd (replay fn w)) = db w.
Proof.
  assert (H : only_prints (replay fn)).
  { destruct fn as [| q | [[[|v]|]] q]; try apply only_prints_ret.
    cbn [replay _redis].
    apply only_prints_bind.
    { apply only_prints_bind; [now apply only_prints_server|].
      intros a. apply only_prints_ret. }
    intros found. apply only_prints_bind.
    { destruct (ne_zero found); [|apply only_prints_ret].
      apply only_prints_bind; [|intros a; apply only_prints_lift].
      apply only_prints_bind; [|intros a; apply only_prints_ret].
      apply only_prints_server, GET_reads. }
    intros n. apply only_prints_bind; [apply only_prints_lift|]. intros count.
    apply only_prints_bind; [apply only_prints_print|]. intros _.
    apply only_prints_bind.
    { apply only_prints_bind; [|intros a; apply only_prints_ret].
      apply only_prints_server, LRANGE_reads. }
    intros ins. apply only_prints_bind.
    { apply only_prints_bind; [|intros a; apply only_prints_ret].
      apply only_prints_server, LRANGE_reads. }
    intros outs. apply only_prints_pairs. }
  destruct (H w) as [lines Hl]. exists lines.
  split; [exact Hl|]. now rewrite Hl, db_emits.
Qed.

Lemma redis_lrange_all k w l :
  list_at w k = Some l -> redis_lrange k 0 (-1) w = (Ok (map PBytes l), w).
Proof.
  unfold list_at, redis_lrange, Server.LRANGE, bind.
  destruct (lookup_key w k) as [e|].
  - destruct (e_val e); [discriminate|]. intros [= ->]. now rewrite range_all.
  - now intros [= <-].
Qed.

Lemma redis_exists_at q w :
  redis_exists q w =
    (Ok (PInt (match lookup_key w q with Some _ => 1 | None => 0 end)), w).
Proof. reflexivity. Qed.

(** What [replay] reads as the number of calls when there is a counter. *)
Lemma stored_count q w e n :
  lookup_key w q = Some e -> e_val e = RString (int_repr n) ->
  LLONG_MIN <= n <= LLONG_MAX ->
  (stored <- redis_get q ;; lift (py_int stored)) w = (Ok n, w).
Proof.
  intros Hl Hv Hn.
  erewrite bind_ok by (eapply redis_get_string; eassumption).
  unfold lift, py_int. now rewrite int_of_text_int_repr by now apply digit_count_int64.
Qed.

Lemma print_pairs_report q (li : list string) : forall (lo : list string) w,
  Forall (fun i => utf8_valid i = true) (take (length lo) li) ->
  print_pairs q (map PBytes li) (map PBytes lo) w =
    (Ok tt,
     emits (zip_with (fun i o => q +:+ "(*" +:+ i +:+ ") -> " +:+ bytes_repr py o)
              li lo) w).
Proof.
  induction li as [|i li IH]; intros lo w Hall; [reflexivity|].
  destruct lo as [|o lo]; [reflexivity|].
  cbn [length take] in Hall. apply Forall_cons in Hall as [Hi Hall].
  cbn [map print_pairs zip_with].
  unfold bind at 1. unfold lift, decode_utf8. rewrite Hi.
  unfold bind at 1. unfold format_value. cbn [showable].
  unfold bind at 1. unfold bind at 1. unfold print. cbn [py_str repr emits].
  now rewrite IH.
Qed.

Lemma replay_run (q : string) (w : world) (n : Z) (li lo : list string) :
  counter_at w q = Some n ->
  list_at w (q +:+ ":inputs") = Some li ->
  list_at w (q +:+ ":outputs") = Some lo ->
  Forall (fun i => utf8_valid i = true) (take (length lo) li) ->
  replay (BoundMethod a_cache q) w =
    (Ok tt,
     emits ((q +:+ " was called " +:+ int_repr n +:+ " times:")
            :: zip_with (fun i o => q +:+ "(*" +:+ i +:+ ") -> " +:+ bytes_repr py o)
                 li lo) w).
Proof.
  intros Hc Hli Hlo Hall. cbn [replay _redis a_cache].
  pose proof (counter_at_range _ _ _ Hc) as Hr.
  erewrite bind_ok by apply redis_exists_at.
  assert (Hn : (if ne_zero (PInt (match lookup_key w q with
                                  | Some _ => 1 | None => 0 end))
                then stored <- redis_get q ;; lift (py_int stored)
                else ret 0) w = (Ok n, w)).
  { unfold counter_at in Hc. destruct (lookup_key w q) as [e|] eqn:Hl.
    - destruct (e_val e) as [b|] eqn:Hv; [|discriminate Hc].
      apply string2ll_spec in Hc as [-> _].
      cbn [ne_zero Z.eqb negb]. now apply (stored_count q w e n).
    - injection Hc as <-. reflexivity. }
  erewrite bind_ok by exact Hn.
  erewrite bind_ok by (unfold lift; now rewrite repr_int_int64).
  unfold bind at 1. unfold print at 1.
  erewrite bind_ok by (apply redis_lrange_all; exact Hli).
  erewrite bind_ok by (apply redis_lrange_all; exact Hlo).
  rewrite print_pairs_report by exact Hall. reflexivity.
Qed.

(** X13: on a live cache whose counter and two sequences are readable,
    and where every recorded input that has a recorded output to go with
    is well-formed UTF-8, [replay] returns normally after printing a
    header with the number the counter holds (0 when there is no
    counter) and then one line for each pair of a recorded input and a
    recorded output, in order, up to the shorter of the two sequences;
    entries left over are neither decoded nor shown. *)
Theorem replay_report (q : string) (w : world) (n : Z) (li lo : list string) :
  counter_at w q = Some n ->
  list_at w (q +:+ ":inputs") = Some li ->
  list_at w (q +:+ ":outputs") = Some lo ->
  Forall (fun i => utf8_valid i = true) (take (length lo) li) ->
  fst (replay (BoundMethod a_cache q) w) = Ok tt
  /\ stdout (snd (replay (BoundMethod a_cache q) w)) =
     (stdout w
      ++ (q +:+ " was called " +:+ int_repr n +:+ " times:")
         :: zip_with (fun i o => q +:+ "(*" +:+ i +:+ ") -> " +:+ bytes_repr py o)
              li lo)%list
  /\ length (stdout (snd (replay (BoundMethod a_cache q) w))) =
     (length (stdout w) + 1 + Nat.min (length li) (length lo))%nat.
Proof.
  intros Hc Hli Hlo Hall.
  rewrite (replay_run q w n li lo Hc Hli Hlo Hall). cbn [fst snd].
  assert (E : forall lines v, stdout (emits lines v) = (stdout v ++ lines)%list).
  { induction lines as [|x l IH]; intros v; simpl.
    - now rewrite app_nil_r.
    - rewrite IH. simpl. now rewrite <- app_assoc. }
  split; [reflexivity|]. rewrite E. split; [reflexivity|].
  rewrite length_app. simpl. rewrite length_zip_with. lia.
Qed.

(** The two sequences hold, in order, what each call of a run was given
    and what it returned. *)
Lemma run_calls_trace calls : forall w li lo n keys w',
  list_at w "Cache.store:inputs" = Some li ->
  counter_at w "Cache.store" = Some n ->
  list_at w "Cache.store:outputs" = Some lo ->
  run_calls a_cache calls w = (Ok keys, w') ->
  list_at w' "Cache.store:inputs"
    = Some (li ++ map (fun c => str_tuple (fst c)) calls)%list
  /\ list_at w' "Cache.store:outputs" = Some (lo ++ map py_str keys)%list
  /\ counter_at w' "Cache.store" = Some (n + Z.of_nat (length calls)).
Proof.
  induction calls as [|[args kw] rest IH]; intros w li lo n keys w' Hli Hc Hlo Hrun.
  - simpl in Hrun. injection Hrun as <- <-.
    simpl. now rewrite !app_nil_r, Z.add_0_r.
  - cbn [run_calls] in Hrun. unfold bind at 1 in Hrun.
    destruct (call Cache_store a_cache args kw w) as [[key|e] w1] eqn:Hcall;
      [|discriminate Hrun].
    destruct (Cache_store_returns _ _ _ _ _ Hcall)
      as (data & b & li0 & n0 & lo0 & Hd & He & Hli0 & Hc0 & Hn0 & Hlo0).
    rewrite Hli in Hli0. rewrite Hc in Hc0. rewrite Hlo in Hlo0.
    injection Hli0 as <-. injection Hc0 as <-. injection Hlo0 as <-.
    destruct (Cache_store_ok args kw w data b li lo n Hd He Hli Hc Hn0 Hlo)
      as (w1' & Hcall' & Vi & Vc & Vo & _).
    rewrite Hcall in Hcall'. injection Hcall' as -> <-.
    unfold bind at 1 in Hrun.
    destruct (run_calls a_cache rest w1) as [[keys1|e] w2] eqn:Hrest;
      [|discriminate Hrun].
    injection Hrun as <- <-.
    destruct (IH w1 _ _ _ keys1 w2 Vi Vc Vo Hrest) as (Wi & Wo & Wc).
    cbn [map py_str fst length]. rewrite Nat2Z.inj_succ.
    rewrite <- !app_assoc in Wi, Wo. simpl in Wi, Wo.
    replace (n + Z.succ (Z.of_nat (length rest)))
      with (n + 1 + Z.of_nat (length rest)) by lia.
    auto.
Qed.

Lemma zip_with_maps {A B C D E : Type} (f : C -> D -> E) (g : A -> C) (h : B -> D)
    (l : list A) : forall k : list B,
  zip_with f (map g l) (map h k) = zip_with (fun a b => f (g a) (h b)) l k.
Proof.
  induction l as [|a l IH]; intros [|b k]; simpl; try reflexivity.
  now rewrite IH.
Qed.

(** X14: after a run of calls of [cache.store] that all returned, on a
    store that began with no counter and no history, [replay(cache.store)]
    prints the number of calls and then, call by call and in order, the
    arguments of the call and the key it returned. *)
Theorem replay_after_calls (calls : list (list pyval * kwargs)) (w : world)
    (keys : list pyval) (w' : world) :
  lookup_key w "Cache.store" = None ->
  lookup_key w "Cache.store:inputs" = None ->
  lookup_key w "Cache.store:outputs" = None ->
  run_calls a_cache calls w = (Ok keys, w') ->
  Forall (fun c => utf8_valid (str_tuple (fst c)) = true) calls ->
  replay (BoundMethod a_cache "Cache.store") w' =
    (Ok tt,
     emits (("Cache.store was called "
             +:+ int_repr (Z.of_nat (length calls)) +:+ " times:")
            :: zip_with
                 (fun c key => "Cache.store(*" +:+ str_tuple (fst c) +:+ ") -> "
                               +:+ bytes_repr py (py_str key))
                 calls keys) w').
Proof.
  intros Hc Hi Ho Hrun Hall.
  destruct (run_calls_trace calls w [] [] 0 keys w') as (Vi & Vo & Vc); auto.
  - unfold list_at. now rewrite Hi.
  - unfold counter_at. now rewrite Hc.
  - unfold list_at. now rewrite Ho.
  - simpl in Vi, Vo, Vc.
    rewrite (replay_run "Cache.store" w' _ _ _ Vc Vi Vo).
    + now rewrite zip_with_maps.
    + apply Forall_take. clear -Hall.
      induction Hall; simpl; constructor; auto.
Qed.

(** ** More on [get_page] *)

(** A call of [get_page] in full, when the counter can count. *)
Lemma get_page_run (url : string) (w : world) (n : Z) :
  counter_at w ("count:" +:+ url) = Some n -> n <> LLONG_MAX ->
  get_page url w =
    let w1 :=
      put ("count:" +:+ url)
        (Entry (RString (int_repr (n + 1))) (exp_of w ("count:" +:+ url))) w in
    let fetched :=
      match web w url with
      | Ok body =>
          (Ok (PStr body),
           put ("result:" +:+ url)
             (Entry (RString body) (Some (now w + 10000))) (sent url w1))
      | Raise e => (Raise e, sent url w1)
      end in
    match lookup_key w ("result:" +:+ url) with
    | None => fetched
    | Some e =>
        match e_val e with
        | RList _ => (Raise Server.WRONGTYPE, w1)
        | RString b =>
            if String.eqb b "" then fetched
            else if utf8_valid b then (Ok (PStr b), w1)
            else (Raise UnicodeDecodeError, w1)
        end
    end.
Proof.
  intros Hc Hn. cbv zeta.
  pose proof (count_result_distinct url) as Hk.
  unfold get_page, cache_response.
  erewrite bind_ok by (apply redis_incr_ok; eassumption).
  set (w1 := put ("count:" +:+ url) _ w).
  assert (Hl : lookup_key w1 ("result:" +:+ url) = lookup_key w ("result:" +:+ url))
    by (unfold w1; now rewrite lookup_key_put_ne).
  assert (Hf : (result <- requests_get_text url ;;
                redis_setex ("result:" +:+ url) 10 result ;;; ret result) w1 =
               match web w url with
               | Ok body =>
                   (Ok (PStr body),
                    put ("result:" +:+ url)
                      (Entry (RString body) (Some (now w + 10000))) (sent url w1))
               | Raise e => (Raise e, sent url w1)
               end).
  { unfold bind at 1. unfold requests_get_text.
    change (web w1 url) with (web w url).
    destruct (web w url) as [body|e]; reflexivity. }
  destruct (lookup_key w ("result:" +:+ url)) as [e|] eqn:Hres.
  - destruct (e_val e) as [b|l] eqn:Hv.
    + erewrite bind_ok
        by (eapply redis_get_string; [rewrite Hl; reflexivity | exact Hv]).
      unfold truthy. destruct (String.eqb b ""); cbn [negb]; [exact Hf|].
      unfold lift, decode_utf8. now destruct (utf8_valid b).
    + erewrite bind_raise; [reflexivity|].
      eapply redis_get_list; [rewrite Hl; reflexivity | exact Hv].
  - erewrite bind_ok by (apply redis_get_absent; now rewrite Hl).
    unfold truthy. exact Hf.
Qed.

Lemma get_page_uncounted (url : string) (w : world) :
  counter_at w ("count:" +:+ url) = None
  \/ counter_at w ("count:" +:+ url) = Some LLONG_MAX ->
  exists e, get_page url w = (Raise e, w).
Proof.
  intros H. destruct (INCR_raises _ _ H) as [e He]. exists e.
  unfold get_page, cache_response.
  erewrite bind_raise; [reflexivity|].
  unfold redis_incr. erewrite bind_raise by exact He. reflexivity.
Qed.

(** X15: a call of [get_page] that finds nothing cached for the URL (no
    entry, an expired one, or an empty body) sends one request, returns
    the body as text and caches it for ten seconds from the call. *)
Theorem get_page_miss (url : string) (w : world) (n : Z) (body : string) :
  counter_at w ("count:" +:+ url) = Some n -> n <> LLONG_MAX ->
  lookup_key w ("result:" +:+ url) = None
  \/ (exists e, lookup_key w ("result:" +:+ url) = Some e
                /\ e_val e = RString "") ->
  web w url = Ok body ->
  let w' := snd (get_page url w) in
  fst (get_page url w) = Ok (PStr body)
  /\ requests_log w' = (requests_log w ++ [url])%list
  /\ db w' !! ("result:" +:+ url)
     = Some (Entry (RString body) (Some (now w + 10000)))
  /\ counter_at w' ("count:" +:+ url) = Some (n + 1).
Proof.
  intros Hc Hn Hmiss Hweb. cbv zeta.
  pose proof (count_result_distinct url) as Hk.
  pose proof (counter_at_range _ _ _ Hc) as Hr.
  rewrite (get_page_run url w n Hc Hn). cbv zeta. rewrite Hweb.
  assert (Hcount : counter_at
            (put ("result:" +:+ url) (Entry (RString body) (Some (now w + 10000)))
               (sent url
                  (put ("count:" +:+ url)
                     (Entry (RString (int_repr (n + 1)))
                        (exp_of w ("count:" +:+ url))) w)))
            ("count:" +:+ url) = Some (n + 1)).
  { rewrite counter_at_put_ne by congruence.
    change (counter_at (sent url ?x) ?k) with (counter_at x k).
    apply counter_at_put_eq; [apply live_exp_of | lia]. }
  destruct Hmiss as [-> | (e & -> & ->)]; cbn [fst snd String.eqb].
  - repeat split; auto. unfold put at 1. simpl. now rewrite lookup_insert_eq.
  - repeat split; auto. unfold put at 1. simpl. now rewrite lookup_insert_eq.
Qed.

(** X17: every call of [get_page] that finds a counter it can increment
    counts, whether it is served from the cache, fetches, or raises
    (on the fetch, on the cached bytes, or on the type of the cached
    entry): the counter of the URL is one higher afterwards. *)
Theorem get_page_counts (url : string) (w : world) (n : Z) :
  counter_at w ("count:" +:+ url) = Some n -> n <> LLONG_MAX ->
  counter_at (snd (get_page url w)) ("count:" +:+ url) = Some (n + 1).
Proof.
  intros Hc Hn.
  pose proof (count_result_distinct url) as Hk.
  pose proof (counter_at_range _ _ _ Hc) as Hr.
  rewrite (get_page_run url w n Hc Hn). cbv zeta.
  assert (H1 : counter_at
            (put ("count:" +:+ url)
               (Entry (RString (int_repr (n + 1))) (exp_of w ("count:" +:+ url))) w)
            ("count:" +:+ url) = Some (n + 1))
    by (apply counter_at_put_eq; [apply live_exp_of | lia]).
  assert (H2 : forall body,
            counter_at
              (put ("result:" +:+ url) (Entry (RString body) (Some (now w + 10000)))
                 (sent url
                    (put ("count:" +:+ url)
                       (Entry (RString (int_repr (n + 1)))
                          (exp_of w ("count:" +:+ url))) w)))
              ("count:" +:+ url) = Some (n + 1)).
  { intros body. rewrite counter_at_put_ne by congruence. exact H1. }
  destruct (lookup_key w ("result:" +:+ url)) as [e|].
  - destruct (e_val e) as [b|l]; [|exact H1].
    destruct (String.eqb b "").
    + destruct (web w url); [apply H2 | exact H1].
    + destruct (utf8_valid b); exact H1.
  - destruct (web w url); [apply H2 | exact H1].
Qed.

(** X18: a call of [get_page], in whatever state and with whatever
    outcome, leaves the entry of every key alone but for the two keys of
    its URL, [count:{url}] and [result:{url}]. *)
Theorem get_page_frame (url : string) (w : world) (k : string) :
  k <> "count:" +:+ url -> k <> "result:" +:+ url ->
  db (snd (get_page url w)) !! k = db w !! k.
Proof.
  intros K1 K2.
  destruct (counter_at w ("count:" +:+ url)) as [n|] eqn:Hc.
  - destruct (Z.eq_dec n LLONG_MAX) as [->|Hn].
    + now destruct (get_page_uncounted url w (or_intror Hc)) as [e ->].
    + rewrite (get_page_run url w n Hc Hn). cbv zeta.
      destruct (lookup_key w ("result:" +:+ url)) as [e|];
        [destruct (e_val e) as [b|l];
         [destruct (String.eqb b "");
          [destruct (web w url) | destruct (utf8_valid b)] |]
        | destruct (web w url)];
        cbn [snd];
        repeat first [rewrite db_put_ne by congruence
                     | change (db (sent url ?x)) with (db x)];
        reflexivity.
  - now destruct (get_page_uncounted url w (or_introl Hc)) as [e ->].
Qed.

(** The state a miss leaves, seen [dt] milliseconds later. *)
Lemma after_miss (url : string) (w : world) (n : Z) (body : string) (dt : Z) :
  counter_at w ("count:" +:+ url) = Some n -> n + 1 < LLONG_MAX ->
  lookup_key w ("result:" +:+ url) = None ->
  web w url = Ok body ->
  0 <= dt ->
  let w2 := advance dt (snd (get_page url w)) in
  (exists m, counter_at w2 ("count:" +:+ url) = Some m /\ m <> LLONG_MAX)
  /\ lookup_key w2 ("result:" +:+ url)
     = (if dt <=? 10000
        then Some (Entry (RString body) (Some (now w + 10000))) else None)
  /\ web w2 = web w
  /\ requests_log w2 = (requests_log w ++ [url])%list.
Proof.
  intros Hc Hn Hres Hweb Hdt. cbv zeta.
  pose proof (count_result_distinct url) as Hk.
  pose proof (counter_at_range _ _ _ Hc) as Hr.
  rewrite (get_page_run url w n Hc) by lia. cbv zeta. rewrite Hres, Hweb.
  cbn [snd]. split; [|split; [|split; reflexivity]].
  - unfold counter_at, lookup_key, advance, put, sent. cbn [db now set_db].
    rewrite lookup_insert_ne by congruence. rewrite lookup_insert_eq.
    destruct (live (now w + Z.max dt 0)
                (Entry (RString (int_repr (n + 1))) (exp_of w ("count:" +:+ url)))).
    + cbn [e_val]. rewrite string2ll_int_repr by lia.
      exists (n + 1). split; [reflexivity | lia].
    + exists 0. split; [reflexivity | discriminate].
  - unfold lookup_key, advance, put, sent. cbn [db now set_db].
    rewrite lookup_insert_eq. unfold live. cbn [e_exp].
    rewrite Z.max_l by lia.
    destruct (Z.leb_spec dt 10000);
      destruct (Z.leb_spec (now w + dt) (now w + 10000)); try lia; reflexivity.
Qed.

(** X19: a page that a miss has just cached, with a body that is not
    empty, is served from the cache to every call made less than ten
    seconds later: the same text, and no second request. *)
Theorem get_page_within_ten_seconds (url : string) (w : world) (n : Z)
    (body : string) (dt : Z) :
  counter_at w ("count:" +:+ url) = Some n -> n + 1 < LLONG_MAX ->
  lookup_key w ("result:" +:+ url) = None ->
  web w url = Ok body ->
  body <> "" -> utf8_valid body = true ->
  0 <= dt < 10000 ->
  let again := get_page url (advance dt (snd (get_page url w))) in
  fst again = Ok (PStr body)
  /\ requests_log (snd again) = (requests_log w ++ [url])%list.
Proof.
  intros Hc Hn Hres Hweb Hb Hu Hdt. cbv zeta.
  destruct (after_miss url w n body dt Hc Hn Hres Hweb) as ((m & Hm & Hmax) & Hl & _ & Hlog);
    [lia|].
  rewrite (get_page_run url _ m Hm Hmax). cbv zeta. rewrite Hl.
  destruct (Z.leb_spec dt 10000); [|lia]. cbn [e_val].
  destruct (String.eqb_spec body ""); [contradiction|]. rewrite Hu.
  cbn [fst snd]. split; [reflexivity|]. exact Hlog.
Qed.

(** X20: more than ten seconds after a miss cached a page, the entry
    has expired: the next call sends a second request for the URL. (At
    ten seconds to the millisecond the server still has the entry.) *)
Theorem get_page_after_ten_seconds (url : string) (w : world) (n : Z)
    (body : string) (dt : Z) :
  counter_at w ("count:" +:+ url) = Some n -> n + 1 < LLONG_MAX ->
  lookup_key w ("result:" +:+ url) = None ->
  web w url = Ok body ->
  10000 < dt ->
  let again := get_page url (advance dt (snd (get_page url w))) in
  fst again = Ok (PStr body)
  /\ requests_log (snd again) = (requests_log w ++ [url; url])%list.
Proof.
  intros Hc Hn Hres Hweb Hdt. cbv zeta.
  destruct (after_miss url w n body dt Hc Hn Hres Hweb)
    as ((m & Hm & Hmax) & Hl & Hw & Hlog); [lia|].
  rewrite (get_page_run url _ m Hm Hmax). cbv zeta. rewrite Hl.
  destruct (Z.leb_spec dt 10000); [lia|].
  rewrite Hw, Hweb. cbn [fst snd]. split; [reflexivity|].
  change (requests_log (put ?k ?e ?x)) with (requests_log x).
  cbn [sent requests_log].
  change (requests_log (put ?k ?e ?x)) with (requests_log x).
  rewrite Hlog. now rewrite <- app_assoc.
Qed.

End Python.

(** ** The theorems at work *)

(** [store("foo")] then [get_str], and [store(123)] then [get_int]. *)
Example store_foo_get_str :
  let r := call (Cache_store ascii_builtins) a_cache [PStr "foo"] [] sample_world in
  fst r = Ok (PStr "00000000-0000-4000-8000-000000000000")
  /\ fst (Cache_get_str a_cache "00000000-0000-4000-8000-000000000000" (snd r))
     = Ok (PStr "foo").
Proof. cbv zeta. split; vm_compute; reflexivity. Qed.

Example store_123_get_int :
  let r := call (Cache_store ascii_builtins) a_cache [PInt 123] [] sample_world in
  fst (Cache_get_int a_cache "00000000-0000-4000-8000-000000000000" (snd r))
  = Ok (PInt 123).
Proof. vm_compute. reflexivity. Qed.

(** Three calls, then [replay(cache.store)]. *)
Example replay_three_calls :
  stdout (snd ((run_calls ascii_builtins a_cache sample_calls ;;;
                replay ascii_builtins (BoundMethod a_cache "Cache.store"))
               sample_world))
  = ["Cache.store was called 3 times:";
     "Cache.store(*('a',)) -> b'00000000-0000-4000-8000-000000000000'";
     "Cache.store(*('b',)) -> b'00000000-0000-429d-82b6-4e76714244cb'";
     "Cache.store(*('c',)) -> b'00000000-0000-453a-856c-9cece2848996'"].
Proof. vm_compute. reflexivity. Qed.

(** A page is fetched once for two calls no more than ten seconds
    apart, and again once the ten seconds are over. *)
Example get_page_expiry :
  let first := snd (get_page ascii_builtins "http://a" sample_world) in
  requests_log (snd (get_page ascii_builtins "http://a" (advance 9999 first)))
    = ["http://a"]
  /\ requests_log (snd (get_page ascii_builtins "http://a" (advance 10000 first)))
    = ["http://a"]
  /\ requests_log (snd (get_page ascii_builtins "http://a" (advance 10001 first)))
    = ["http://a"; "http://a"]
  /\ counter_at (snd (get_page ascii_builtins "http://a" (advance 9999 first)))
       "count:http://a" = Some 2.
Proof. cbv zeta. repeat split; vm_compute; reflexivity. Qed.

(** [str(args)] on tuples of none, one and two arguments. *)
Example str_tuple_samples :
  str_tuple ascii_builtins [] = "()"
  /\ str_tuple ascii_builtins [PInt 7] = "(7,)"
  /\ str_tuple ascii_builtins [PInt 7; PStr "x"] = "(7, 'x')"
  /\ str_tuple ascii_builtins [PNone; PBool true; PBytes "b"] = "(None, True, b'b')".
Proof. repeat split; vm_compute; reflexivity. Qed.

(** What the recorder does and does not accept: a keyword named [self]
    is refused, an integer of 4301 digits has no display string, text
    with a lone surrogate cannot be written down. *)
Example refused_calls :
  fst (call (Cache_store ascii_builtins) a_cache [PStr "x"] [("self", PInt 1)]
         sample_world) = Raise TypeError
  /\ fst (call (Cache_store ascii_builtins) a_cache [PInt (10 ^ 4300)] []
            sample_world) = Raise ValueError
  /\ fst (call (Cache_store ascii_builtins) a_cache [PInt (10 ^ 4300 - 1)] []
            sample_world) = Ok (PStr (next_key sample_world))
  /\ fst (call (Cache_store ascii_builtins) a_cache [PStrLone "x"] []
            sample_world) = Raise UnicodeEncodeError.
Proof. repeat split; vm_compute; reflexivity. Qed.

(** A decorated call with a positional and a keyword argument. *)
Example call_history_tagged :
  let r := call (call_history ascii_builtins tagged) a_cache [PInt 7]
             [("tag", PStr "x")] sample_world in
  fst r = Ok (PStr "x")
  /\ list_at (snd r) "Probe.tagged:inputs" = Some ["(7,)"]
  /\ list_at (snd r) "Probe.tagged:outputs" = Some ["x"].
Proof. cbv zeta. repeat split; vm_compute; reflexivity. Qed.

(** C1, as stated, fails on every value that is not binary: what comes
    back for the integer [123] is the [bytes] [b"123"], and for the text
    ["foo"] the [bytes] [b"foo"]. *)
Lemma store_then_get_differs :
  let r := call (Cache_store ascii_builtins) a_cache [PInt 123] [] sample_world in
  let r' := call (Cache_store ascii_builtins) a_cache [PStr "foo"] [] sample_world in
  (supported (PInt 123) = true
   /\ fst r = Ok (PStr (next_key sample_world))
   /\ fst (Cache_get a_cache (next_key sample_world) None (snd r)) = Ok (PBytes "123")
   /\ PBytes "123" <> PInt 123)
  /\ (supported (PStr "foo") = true
      /\ fst r' = Ok (PStr (next_key sample_world))
      /\ fst (Cache_get a_cache (next_key sample_world) None (snd r'))
         = Ok (PBytes "foo")
      /\ PBytes "foo" <> PStr "foo").
Proof.
  cbv zeta. split.
  - split; [reflexivity|]. split; [vm_compute; reflexivity|].
    split; [vm_compute; reflexivity | discriminate].
  - split; [reflexivity|]. split; [vm_compute; reflexivity|].
    split; [vm_compute; reflexivity | discriminate].
Qed.

Lemma store_then_get_witness :
  let r := call (Cache_store ascii_builtins) a_cache [PInt 12] [] sample_world in
  exists b,
    lookup_key (snd r) (next_key sample_world) = Some (Entry (RString b) None)
    /\ Cache_get a_cache (next_key sample_world) None (snd r) = (Ok (PBytes b), snd r)
    /\ b = int_repr 12.
Proof.
  cbv zeta.
  apply (store_then_get ascii_builtins [PInt 12] [] (PInt 12) sample_world).
  - reflexivity.
  - reflexivity.
  - vm_compute. reflexivity.
Defined.

Lemma store_counts_calls_witness :
  let w' := snd (run_calls ascii_builtins a_cache sample_calls sample_world) in
  counter_at w' "Cache.store" = Some 3
  /\ exists li lo,
       list_at w' "Cache.store:inputs" = Some li
       /\ list_at w' "Cache.store:outputs" = Some lo
       /\ length li = 3%nat /\ length lo = 3%nat.
Proof.
  cbv zeta.
  apply (store_counts_calls ascii_builtins sample_calls sample_world
           (match fst (run_calls ascii_builtins a_cache sample_calls sample_world)
            with Ok keys => keys | Raise _ => [] end)).
  - reflexivity.
  - reflexivity.
  - reflexivity.
  - vm_compute. reflexivity.
Defined.

(** C4, as stated, fails when the call that raises comes after another
    one that raised: two calls of [store(None)] in a row leave two
    inputs and no output. *)
Lemma store_raise_twice :
  let w1 := snd (call (Cache_store ascii_builtins) a_cache [PNone] [] sample_world) in
  let r := call (Cache_store ascii_builtins) a_cache [PNone] [] w1 in
  fst (call (store ascii_builtins) a_cache [PNone] []
         (entered ascii_builtins w1 [PNone] ["(None,)"] 1)) = Raise DataError
  /\ fst r = Raise DataError
  /\ counter_at (snd r) "Cache.store" = Some 2
  /\ list_at (snd r) "Cache.store:inputs" = Some ["(None,)"; "(None,)"]
  /\ list_at (snd r) "Cache.store:outputs" = Some [].
Proof. cbv zeta. repeat split; vm_compute; reflexivity. Qed.

Lemma store_raise_recorded_witness :
  let r := call (Cache_store ascii_builtins) a_cache [PNone] [] sample_world in
  fst r = Raise DataError
  /\ counter_at (snd r) "Cache.store" = Some (0 + 1)
  /\ list_at (snd r) "Cache.store:inputs"
     = Some ([] ++ [str_tuple ascii_builtins [PNone]])%list
  /\ db (snd r) !! "Cache.store:outputs" = db sample_world !! "Cache.store:outputs"
  /\ forall lo, list_at sample_world "Cache.store:outputs" = Some lo ->
       list_at (snd r) "Cache.store:outputs" = Some lo
       /\ Z.of_nat (length ([] ++ [str_tuple ascii_builtins [PNone]])%list)
          - Z.of_nat (length lo)
          = Z.of_nat (length (@nil string)) - Z.of_nat (length lo) + 1
       /\ (length (@nil string) = length lo ->
           length ([] ++ [str_tuple ascii_builtins [PNone]])%list = S (length lo)).
Proof.
  cbv zeta.
  apply (store_raise_recorded ascii_builtins [PNone] [] sample_world [] 0 DataError).
  - reflexivity.
  - reflexivity.
  - reflexivity.
  - reflexivity.
  - discriminate.
  - vm_compute. reflexivity.
Defined.

Lemma Cache_get_absent_witness :
  Cache_get a_cache "no such key" None busy_world = (Ok PNone, busy_world).
Proof. apply Cache_get_absent. reflexivity. Defined.

Lemma get_page_fetch_raises_witness :
  let r := get_page ascii_builtins "http://down" sample_world in
  fst r = Raise (RequestException "refused")
  /\ db (snd r) !! "result:http://down" = db sample_world !! "result:http://down"
  /\ exists n, counter_at sample_world "count:http://down" = Some n
               /\ counter_at (snd r) "count:http://down" = Some (n + 1).
Proof.
  cbv zeta.
  apply (get_page_fetch_raises ascii_builtins "http://down" sample_world
           (RequestException "refused")).
  - reflexivity.
  - apply surjective_pairing.
  - vm_compute. reflexivity.
Defined.

(** C8, as stated, fails on a method that is bound to a live cache but
    is not instrumented: [replay(cache.get)] prints a header. *)
Lemma replay_uninstrumented_prints :
  instrumented (BoundMethod a_cache "Cache.get") = false
  /\ replay ascii_builtins (BoundMethod a_cache "Cache.get") sample_world
     = (Ok tt, emit "Cache.get was called 0 times:" sample_world).
Proof. split; vm_compute; reflexivity. Qed.

Lemma replay_no_client_witness :
  replay ascii_builtins (BoundMethod {| _redis := Some (NotRedis PNone) |} "Cache.store")
    busy_world = (Ok tt, busy_world)
  /\ replay ascii_builtins (Function "Cache.store") busy_world = (Ok tt, busy_world)
  /\ replay ascii_builtins FnNone busy_world = (Ok tt, busy_world).
Proof.
  split; [|split]; apply replay_no_client; reflexivity.
Defined.

Lemma Cache_store_frame_witness :
  db (snd (call (Cache_store ascii_builtins) a_cache [PStr "foo"] [] busy_world))
    !! "greeting" = db busy_world !! "greeting".
Proof.
  apply Cache_store_frame.
  - vm_compute. discriminate.
  - discriminate.
  - discriminate.
  - discriminate.
Defined.



(** ** The further theorems at work *)

Lemma store_then_get_str_witness :
  let r := call (Cache_store ascii_builtins) a_cache [PStr "foo"] [] sample_world in
  Cache_get_str a_cache (next_key sample_world) (snd r) = (Ok (PStr "foo"), snd r).
Proof.
  cbv zeta.
  apply (store_then_get_str ascii_builtins [PStr "foo"] [] "foo" sample_world).
  - reflexivity.
  - reflexivity.
  - vm_compute. reflexivity.
Defined.

Lemma store_then_get_int_witness :
  let r := call (Cache_store ascii_builtins) a_cache [PInt (-123)] [] sample_world in
  Cache_get_int a_cache (next_key sample_world) (snd r) = (Ok (PInt (-123)), snd r).
Proof.
  cbv zeta.
  apply (store_then_get_int ascii_builtins [PInt (-123)] [] (-123) sample_world).
  - reflexivity.
  - vm_compute. reflexivity.
Defined.

Lemma decoders_on_absent_key_witness :
  Cache_get_str a_cache "no such key" busy_world = (Raise AttributeError, busy_world)
  /\ Cache_get_int a_cache "no such key" busy_world = (Raise TypeError, busy_world).
Proof. apply decoders_on_absent_key. reflexivity. Defined.

Lemma get_on_history_key_witness :
  let w' := snd (call (Cache_store ascii_builtins) a_cache [PStr "foo"] [] sample_world) in
  Cache_get a_cache "Cache.store:inputs" None w' = (Raise Server.WRONGTYPE, w')
  /\ Cache_get a_cache "Cache.store:outputs" None w' = (Raise Server.WRONGTYPE, w').
Proof.
  cbv zeta.
  apply (get_on_history_key ascii_builtins [PStr "foo"] [] sample_world
           (PStr (next_key sample_world))).
  vm_compute. reflexivity.
Defined.

Lemma store_succeeds_witness :
  exists w',
    call (Cache_store ascii_builtins) a_cache [PFloat 4609434218613702656] []
      sample_world = (Ok (PStr (next_key sample_world)), w')
    /\ String.length (next_key sample_world) = 36%nat
    /\ counter_at w' "Cache.store" = Some (0 + 1)
    /\ list_at w' "Cache.store:inputs"
       = Some ([] ++ [str_tuple ascii_builtins [PFloat 4609434218613702656]])%list
    /\ list_at w' "Cache.store:outputs" = Some ([] ++ [next_key sample_world])%list.
Proof.
  apply (store_succeeds ascii_builtins [PFloat 4609434218613702656] []
           (PFloat 4609434218613702656) sample_world [] [] 0).
  - reflexivity.
  - reflexivity.
  - reflexivity.
  - reflexivity.
  - discriminate.
  - reflexivity.
Defined.

Lemma run_of_supported_calls_witness :
  exists keys w',
    run_calls ascii_builtins a_cache sample_calls sample_world = (Ok keys, w')
    /\ length keys = length sample_calls.
Proof.
  apply run_of_supported_calls.
  - reflexivity.
  - reflexivity.
  - reflexivity.
  - repeat constructor; eexists; split; reflexivity.
  - vm_compute. discriminate.
Defined.

Lemma store_blocked_by_inputs_witness :
  call (Cache_store ascii_builtins) a_cache [PStr "foo"] []
    (jammed_world "Cache.store:inputs")
  = (Raise Server.WRONGTYPE, jammed_world "Cache.store:inputs").
Proof. apply store_blocked_by_inputs; reflexivity. Defined.



Lemma decorators_without_client_witness :
  let other := {| _redis := Some (NotRedis (PInt 0)) |} in
  let r := call (Cache_store ascii_builtins) other [PStr "foo"] [] busy_world in
  r = call (store ascii_builtins) other [PStr "foo"] [] busy_world
  /\ (fst r = Raise TypeError \/ fst r = Raise AttributeError)
  /\ db (snd r) = db busy_world.
Proof.
  cbv zeta. apply (decorators_without_client ascii_builtins _ (PInt 0)).
  reflexivity.
Defined.

Lemma stored_value_stays_witness :
  let w1 := snd (call (Cache_store ascii_builtins) a_cache [PStr "a"] [] sample_world) in
  exists b,
    fst (Cache_get a_cache (next_key sample_world) None w1) = Ok (PBytes b)
    /\ fst (Cache_get a_cache (next_key sample_world) None
              (snd (call (Cache_store ascii_builtins) a_cache [PNone] [] w1)))
       = Ok (PBytes b).
Proof.
  cbv zeta.
  apply (stored_value_stays ascii_builtins [PStr "a"] [] sample_world).
  - vm_compute. reflexivity.
  - vm_compute. discriminate.
Defined.

Lemma replay_report_witness :
  let w := put "Cache.store:inputs"
             (Entry (RList ["('a',)"; String (ascii_of_N 255) ""]) None)
             (snd (call (Cache_store ascii_builtins) a_cache [PStr "a"] []
                     sample_world)) in
  fst (replay ascii_builtins (BoundMethod a_cache "Cache.store") w) = Ok tt
  /\ stdout (snd (replay ascii_builtins (BoundMethod a_cache "Cache.store") w))
     = ["Cache.store was called 1 times:";
        "Cache.store(*('a',)) -> b'00000000-0000-4000-8000-000000000000'"].
Proof.
  cbv zeta.
  refine ((fun H => conj (proj1 H) (proj1 (proj2 H)))
    (replay_report ascii_builtins "Cache.store"
       (put "Cache.store:inputs"
          (Entry (RList ["('a',)"; String (ascii_of_N 255) ""]) None)
          (snd (call (Cache_store ascii_builtins) a_cache [PStr "a"] []
                  sample_world)))
       1 ["('a',)"; String (ascii_of_N 255) ""]
       ["00000000-0000-4000-8000-000000000000"] _ _ _ _)).
  - vm_compute. reflexivity.
  - vm_compute. reflexivity.
  - vm_compute. reflexivity.
  - repeat constructor.
Defined.

Lemma replay_after_calls_witness :
  let r := run_calls ascii_builtins a_cache sample_calls sample_world in
  stdout (snd (replay ascii_builtins (BoundMethod a_cache "Cache.store") (snd r)))
  = ["Cache.store was called 3 times:";
     "Cache.store(*('a',)) -> b'00000000-0000-4000-8000-000000000000'";
     "Cache.store(*('b',)) -> b'00000000-0000-429d-82b6-4e76714244cb'";
     "Cache.store(*('c',)) -> b'00000000-0000-453a-856c-9cece2848996'"].
Proof.
  cbv zeta.
  rewrite (replay_after_calls ascii_builtins sample_calls sample_world
             (match fst (run_calls ascii_builtins a_cache sample_calls sample_world)
              with Ok keys => keys | Raise _ => [] end)
             (snd (run_calls ascii_builtins a_cache sample_calls sample_world))).
  - vm_compute. reflexivity.
  - reflexivity.
  - reflexivity.
  - reflexivity.
  - vm_compute. reflexivity.
  - repeat constructor.
Defined.

Lemma get_page_miss_witness :
  let r := get_page ascii_builtins "http://a" sample_world in
  fst r = Ok (PStr "<html>")
  /\ requests_log (snd r) = ["http://a"]
  /\ db (snd r) !! "result:http://a" = Some (Entry (RString "<html>") (Some 10000))
  /\ counter_at (snd r) "count:http://a" = Some 1.
Proof.
  cbv zeta.
  apply (get_page_miss ascii_builtins "http://a" sample_world 0 "<html>").
  - reflexivity.
  - discriminate.
  - left. reflexivity.
  - reflexivity.
Defined.

Lemma get_page_hit_witness :
  let w := snd (get_page ascii_builtins "http://a" sample_world) in
  get_page ascii_builtins "http://a" w =
    (Ok (PStr "<html>"),
     put "count:http://a" (Entry (RString (int_repr (1 + 1))) None) w).
Proof.
  cbv zeta.
  refine (get_page_hit ascii_builtins "http://a"
            (snd (get_page ascii_builtins "http://a" sample_world)) 1
            (Entry (RString "<html>") (Some 10000)) "<html>" _ _ _ _ _ _).
  - reflexivity.
  - discriminate.
  - reflexivity.
  - reflexivity.
  - discriminate.
  - reflexivity.
Defined.

Lemma get_page_counts_witness :
  counter_at (snd (get_page ascii_builtins "http://down" sample_world))
    "count:http://down" = Some (0 + 1).
Proof.
  apply get_page_counts.
  - reflexivity.
  - discriminate.
Defined.

Lemma get_page_frame_witness :
  db (snd (get_page ascii_builtins "http://a" busy_world)) !! "greeting"
  = db busy_world !! "greeting".
Proof.
  apply get_page_frame.
  - discriminate.
  - discriminate.
Defined.

Lemma get_page_within_ten_seconds_witness :
  let again :=
    get_page ascii_builtins "http://a"
      (advance 9999 (snd (get_page ascii_builtins "http://a" sample_world))) in
  fst again = Ok (PStr "<html>")
  /\ requests_log (snd again) = ([] ++ ["http://a"])%list.
Proof.
  cbv zeta.
  apply (get_page_within_ten_seconds ascii_builtins "http://a" sample_world 0).
  - reflexivity.
  - reflexivity.
  - reflexivity.
  - reflexivity.
  - discriminate.
  - reflexivity.
  - lia.
Defined.

Lemma get_page_after_ten_seconds_witness :
  let again :=
    get_page ascii_builtins "http://a"
      (advance 10001 (snd (get_page ascii_builtins "http://a" sample_world))) in
  fst again = Ok (PStr "<html>")
  /\ requests_log (snd again) = ([] ++ ["http://a"; "http://a"])%list.
Proof.
  cbv zeta.
  apply (get_page_after_ten_seconds ascii_builtins "http://a" sample_world 0).
  - reflexivity.
  - reflexivity.
  - reflexivity.
  - reflexivity.
  - lia.
Defined.
